(** * simple-devenv: the modal pickers, the candidate cache and the execution
    handoff of [tui.py]

    A shallow embedding of the event handlers of [tui.py] and the properties
    of them that the specification states.  Widgets are records holding the
    fields the handlers read and write; a handler is a function from the
    state before the event to the state after it.  The world outside the
    program (the file system, the [gh] tool, the provisioning script, the
    operator at the keyboard) is passed in as data. *)

From Stdlib Require Import Ascii.
From stdpp Require Import gmap strings list sorting pretty.

Local Open Scope string_scope.
Local Open Scope list_scope.

(** ** Python [str] operations used by the handlers

    Strings are [string]s of 8-bit characters; case mapping and white space
    are those of the ASCII range, which is where repository names
    ([owner/name]) live. *)
Module PyStr.

(** [c.lower()] for one character. *)
Definition lower_ascii (c : ascii) : ascii :=
  let n := N_of_ascii c in
  if (65 <=? n)%N && (n <=? 90)%N then ascii_of_N (n + 32) else c.

(** [s.lower()] *)
Fixpoint lower (s : string) : string :=
  match s with
  | EmptyString => EmptyString
  | String c s' => String (lower_ascii c) (lower s')
  end.

(** [s.startswith(p)] *)
Fixpoint startswith (s p : string) : bool :=
  match p, s with
  | EmptyString, _ => true
  | String _ _, EmptyString => false
  | String a p', String b s' => if decide (a = b) then startswith s' p' else false
  end.

(** [sub in s] *)
Fixpoint contains (s sub : string) : bool :=
  startswith s sub ||
  match s with
  | EmptyString => false
  | String _ s' => contains s' sub
  end.

(** White space of [str.strip()] in the ASCII range: tab, line feed,
    vertical tab, form feed, carriage return, the four separators
    0x1c..0x1f and the space. *)
Definition isspace (c : ascii) : bool :=
  let n := N_of_ascii c in
  ((9 <=? n)%N && (n <=? 13)%N) || ((28 <=? n)%N && (n <=? 32)%N).

Fixpoint lstrip (s : string) : string :=
  match s with
  | EmptyString => EmptyString
  | String c s' => if isspace c then lstrip s' else s
  end.

Definition rstrip (s : string) : string := String.rev (lstrip (String.rev s)).

(** [s.strip()] *)
Definition strip (s : string) : string := rstrip (lstrip s).

(** Truth value of a string: [not s] holds of the empty string only. *)
Definition truthy (s : string) : bool := negb (String.eqb s "").

(** [s.split(sep)] for a one-character separator; [cur] is the piece
    being read, last character first. *)
Fixpoint split_go (sep : ascii) (cur : string) (s : string) : list string :=
  match s with
  | EmptyString => [String.rev cur]
  | String c s' =>
      if decide (c = sep) then String.rev cur :: split_go sep EmptyString s'
      else split_go sep (String c cur) s'
  end.

Definition split (sep : ascii) (s : string) : list string := split_go sep EmptyString s.

(** [sep.join(l)] *)
Fixpoint join (sep : string) (l : list string) : string :=
  match l with
  | [] => ""
  | [x] => x
  | x :: l' => x +:+ sep +:+ join sep l'
  end.

(** [c.isalnum()] for one character: a digit or a letter. *)
Definition isalnum_ascii (c : ascii) : bool :=
  let n := N_of_ascii c in
  ((48 <=? n)%N && (n <=? 57)%N) || ((65 <=? n)%N && (n <=? 90)%N)
  || ((97 <=? n)%N && (n <=? 122)%N).

Fixpoint all_chars (f : ascii → bool) (s : string) : bool :=
  match s with
  | EmptyString => true
  | String c s' => f c && all_chars f s'
  end.

(** [s.isalnum()]: there is at least one character and all of them are
    alphanumeric. *)
Definition isalnum (s : string) : bool := truthy s && all_chars isalnum_ascii s.

(** [s.replace(old, new)] for a non-empty [old], left to right without
    overlap; [skip] counts the characters of a found occurrence that are
    still to be passed over. *)
Fixpoint replace_go (old new : string) (skip : nat) (s : string) : string :=
  match s with
  | EmptyString => EmptyString
  | String c s' =>
      match skip with
      | S k => replace_go old new k s'
      | O =>
          if startswith s old then new +:+ replace_go old new (String.length old - 1) s'
          else String c (replace_go old new 0 s')
      end
  end.

Definition replace (s old new : string) : string := replace_go old new 0 s.

End PyStr.

(** ** [pathlib.Path]

    Every path the pickers handle descends from [Path.home()] and is
    absolute, so a path is the list of its components below the root [/],
    outermost first.  Components are kept as written: [..] is not
    collapsed, as in [pathlib].  A text that starts with exactly two
    slashes, for which [pathlib] keeps a root of its own, is read as
    starting at [/]. *)
Abbreviation Path := (list string).

Module PurePath.

(** [p.name]: the last component, empty for the root. *)
Definition name (p : Path) : string := List.last p "".

(** [p.parent]; the root is its own parent. *)
Definition parent (p : Path) : Path := removelast p.

(** Components of a path written as text: the pieces between slashes,
    without the empty ones and the [.] ones. *)
Definition parse_parts (s : string) : list string :=
  List.filter (λ c, negb (String.eqb c "") && negb (String.eqb c ".")) (PyStr.split "/" s).

(** [p / s]: a segment that starts with a slash replaces [p]. *)
Definition truediv (p : Path) (s : string) : Path :=
  if PyStr.startswith s "/" then parse_parts s else p ++ parse_parts s.

(** [str(p)] *)
Definition str (p : Path) : string := "/" +:+ PyStr.join "/" p.

End PurePath.

(** ** Path Filter *)
Module FilteredDirectoryTree.

(** [filter_paths]: the comprehension
    [[p for p in paths if not p.name.startswith(".")]]. *)
Fixpoint filter_paths (paths : list Path) : list Path :=
  match paths with
  | [] => []
  | p :: rest =>
      if negb (PyStr.startswith (PurePath.name p) ".")
      then p :: filter_paths rest
      else filter_paths rest
  end.

End FilteredDirectoryTree.

(** ** The file system

    The part of the operating system that [Path.mkdir] and [Path.is_dir]
    talk to: a finite map from the absolute paths that exist to what is
    there.  The root always exists and is a directory.  There are no
    symbolic links.  A path with a NUL character, which the calls refuse
    with a [ValueError] before they reach the system, is outside this
    model. *)
Module Fs.

Inductive node := Dir (writable : bool) | File.

Inductive errno := EEXIST | ENOENT | ENOTDIR | EACCES | ENAMETOOLONG.

Global Instance errno_eq_dec : EqDecision errno.
Proof. solve_decision. Defined.

(** An [OSError] as raised by a system call on [filename]. *)
Record OSError := mkOSError { oserror_errno : errno; oserror_filename : Path }.

Definition errno_number (e : errno) : Z :=
  match e with
  | EEXIST => 17 | ENOENT => 2 | ENOTDIR => 20 | EACCES => 13 | ENAMETOOLONG => 36
  end.

Definition strerror (e : errno) : string :=
  match e with
  | EEXIST => "File exists"
  | ENOENT => "No such file or directory"
  | ENOTDIR => "Not a directory"
  | EACCES => "Permission denied"
  | ENAMETOOLONG => "File name too long"
  end.

(** [str(e)] for an [OSError] with a file name. *)
Definition OSError_str (e : OSError) : string :=
  "[Errno " +:+ pretty (errno_number (oserror_errno e)) +:+ "] "
    +:+ strerror (oserror_errno e) +:+ ": '" +:+ PurePath.str (oserror_filename e) +:+ "'".

(** What is at the resolved location [d]. *)
Definition stat (fs : gmap Path node) (d : Path) : option node :=
  match d with
  | [] => Some (Dir (match fs !! ([] : Path) with Some (Dir w) => w | _ => false end))
  | _ => fs !! d
  end.

(** Longest file name the system accepts. *)
Definition NAME_MAX : nat := 255.

(** Path resolution: follow the components [comps] from the resolved
    directory [cur].  Each step needs [cur] to be a directory; [..]
    steps to the parent. *)
Fixpoint walk (fs : gmap Path node) (cur : Path) (comps : list string) : errno + Path :=
  match comps with
  | [] => inr cur
  | c :: rest =>
      match stat fs cur with
      | Some (Dir _) =>
          if bool_decide (NAME_MAX < String.length c) then inl ENAMETOOLONG
          else walk fs (if String.eqb c ".." then removelast cur else cur ++ [c]) rest
      | Some File => inl ENOTDIR
      | None => inl ENOENT
      end
  end.

(** [p.is_dir()] *)
Definition is_dir (fs : gmap Path node) (p : Path) : bool :=
  match walk fs [] p with
  | inr d => match stat fs d with Some (Dir _) => true | _ => false end
  | inl _ => false
  end.

(** [os.mkdir(p)] where [p] is [dirpart / c]. *)
Definition os_mkdir_at (fs : gmap Path node) (dirpart : Path) (c : string)
  : errno + gmap Path node :=
  match walk fs [] dirpart with
  | inl e => inl e
  | inr d =>
      match stat fs d with
      | None => inl ENOENT
      | Some File => inl ENOTDIR
      | Some (Dir w) =>
          if bool_decide (NAME_MAX < String.length c) then inl ENAMETOOLONG
          else if String.eqb c ".." then inl EEXIST
          else match stat fs (d ++ [c]) with
               | Some _ => inl EEXIST
               | None => if w then inr (<[d ++ [c] := Dir true]> fs) else inl EACCES
               end
      end
  end.

(** [os.mkdir(p)] for the path whose components, innermost first, are
    [rp]; the root exists already. *)
Definition os_mkdir (fs : gmap Path node) (rp : list string) : errno + gmap Path node :=
  match rp with
  | [] => inl EEXIST
  | c :: rparent => os_mkdir_at fs (rev rparent) c
  end.

(** [Path.mkdir(parents=False, exist_ok=exist_ok)]: the file system
    afterwards and the error raised, if any. *)
Definition mkdir_noparents (fs : gmap Path node) (rp : list string) (exist_ok : bool)
  : gmap Path node * option OSError :=
  match os_mkdir fs rp with
  | inr fs' => (fs', None)
  | inl ENOENT => (fs, Some (mkOSError ENOENT (rev rp)))
  | inl e =>
      if exist_ok && is_dir fs (rev rp) then (fs, None)
      else (fs, Some (mkOSError e (rev rp)))
  end.

(** [Path.mkdir(parents=True, exist_ok=exist_ok)], by recursion on the
    components innermost first: when the parent is missing it is made
    first (with [exist_ok=True]) and the directory itself is then made
    without [parents]. *)
Fixpoint mkdir_parents (fs : gmap Path node) (rp : list string) (exist_ok : bool)
  : gmap Path node * option OSError :=
  match os_mkdir fs rp with
  | inr fs' => (fs', None)
  | inl ENOENT =>
      match rp with
      | [] => (fs, Some (mkOSError ENOENT []))
      | _ :: rparent =>
          match mkdir_parents fs rparent true with
          | (fs1, Some e) => (fs1, Some e)
          | (fs1, None) => mkdir_noparents fs1 rp exist_ok
          end
      end
  | inl e =>
      if exist_ok && is_dir fs (rev rp) then (fs, None)
      else (fs, Some (mkOSError e (rev rp)))
  end.

(** [p.mkdir(parents=parents, exist_ok=exist_ok)] *)
Definition mkdir (fs : gmap Path node) (p : Path) (parents exist_ok : bool)
  : gmap Path node * option OSError :=
  if parents then mkdir_parents fs (rev p) exist_ok else mkdir_noparents fs (rev p) exist_ok.

End Fs.

(** ** Directory Picker *)
Module DirectoryPickerScreen.

(** The screen: its two attributes, the widgets its handlers write (the
    [#selected-path] readout, the [#new-folder-input] value, the number of
    reloads asked of the tree) and the value it was dismissed with, once
    it has been. *)
Record t := mk {
  start_path : Path;
  selected_path : option Path;
  selected_path_static : string;
  new_folder_input : string;
  tree_reloads : nat;
  dismissed : option (option Path)
}.

(** [__init__] followed by [compose]; a [Path] is always true, so
    [start_path or Path.home()] is [start_path] unless it is [None]. *)
Definition init (start : option Path) (home : Path) : t :=
  let sp := default home start in
  {| start_path := sp; selected_path := None;
     selected_path_static := "Current: " +:+ PurePath.str sp;
     new_folder_input := ""; tree_reloads := 0; dismissed := None |}.

Definition dismiss (s : t) (result : option Path) : t :=
  {| start_path := start_path s; selected_path := selected_path s;
     selected_path_static := selected_path_static s;
     new_folder_input := new_folder_input s; tree_reloads := tree_reloads s;
     dismissed := Some result |}.

Definition on_directory_selected (s : t) (path : Path) : t :=
  {| start_path := start_path s; selected_path := Some path;
     selected_path_static := "Selected: " +:+ PurePath.str path;
     new_folder_input := new_folder_input s; tree_reloads := tree_reloads s;
     dismissed := dismissed s |}.

(** The operator edits the [#new-folder-input] field. *)
Definition input_changed (s : t) (value : string) : t :=
  {| start_path := start_path s; selected_path := selected_path s;
     selected_path_static := selected_path_static s;
     new_folder_input := value; tree_reloads := tree_reloads s;
     dismissed := dismissed s |}.

Definition on_create_folder (s : t) (fs : gmap Path Fs.node) : t * gmap Path Fs.node :=
  let folder_name := PyStr.strip (new_folder_input s) in
  if negb (PyStr.truthy folder_name) then (s, fs)
  else
    let parent := default (start_path s) (selected_path s) in
    let new_path := PurePath.truediv parent folder_name in
    match Fs.mkdir fs new_path true true with
    | (fs', None) =>
        ({| start_path := start_path s; selected_path := Some new_path;
            selected_path_static := "Created & Selected: " +:+ PurePath.str new_path;
            new_folder_input := ""; tree_reloads := S (tree_reloads s);
            dismissed := dismissed s |}, fs')
    | (fs', Some e) =>
        ({| start_path := start_path s; selected_path := selected_path s;
            selected_path_static := "Error: " +:+ Fs.OSError_str e;
            new_folder_input := new_folder_input s; tree_reloads := tree_reloads s;
            dismissed := dismissed s |}, fs')
    end.

Definition on_select (s : t) : t :=
  let result := default (start_path s) (selected_path s) in
  dismiss s (Some result).

Definition action_cancel (s : t) : t := dismiss s None.

(** What reaches the screen: the tree's [DirectorySelected] message, an
    edit of the input field, the three buttons and the escape key, which
    is bound to [action_cancel]. *)
Inductive event :=
| DirectorySelected (path : Path)
| InputChanged (value : string)
| CreateFolderPressed
| SelectPressed
| CancelPressed
| EscapeKey.

Definition handle (ev : event) (s : t) (fs : gmap Path Fs.node) : t * gmap Path Fs.node :=
  match ev with
  | DirectorySelected p => (on_directory_selected s p, fs)
  | InputChanged v => (input_changed s v, fs)
  | CreateFolderPressed => on_create_folder s fs
  | SelectPressed => (on_select s, fs)
  | CancelPressed | EscapeKey => (action_cancel s, fs)
  end.

(** The screen receives events until it is dismissed. *)
Fixpoint run (evs : list event) (s : t) (fs : gmap Path Fs.node) : t * gmap Path Fs.node :=
  match evs with
  | [] => (s, fs)
  | ev :: evs' =>
      match dismissed s with
      | Some _ => (s, fs)
      | None => let '(s', fs') := handle ev s fs in run evs' s' fs'
      end
  end.

End DirectoryPickerScreen.

(** ** Repository Picker *)

(** A repository candidate: the pair [(nameWithOwner, url)]. *)
Abbreviation repo := (string * string)%type.

Module RepoPickerScreen.

(** The screen: its three attributes, the value of the [#search-input]
    field, the options of the [#repo-list] widget (prompt and id of each)
    and the value it was dismissed with, once it has been. *)
Record t := mk {
  repos : list repo;
  search_input : string;
  filtered_repos : list repo;
  repo_list : list repo;
  selected_url : option string;
  dismissed : option (option string)
}.

(** [__init__] followed by [compose]. *)
Definition init (repos : list repo) : t :=
  {| repos := repos; search_input := ""; filtered_repos := repos;
     repo_list := List.map (λ '(name, url), (name, url)) repos;
     selected_url := None; dismissed := None |}.

Definition dismiss (s : t) (result : option string) : t :=
  {| repos := repos s; search_input := search_input s;
     filtered_repos := filtered_repos s; repo_list := repo_list s;
     selected_url := selected_url s; dismissed := Some result |}.

(** [option_list.add_option(Option(name, id=url))] *)
Definition add_option (option_list : list repo) (o : repo) : list repo := option_list ++ [o].

(** The comprehension
    [[(name, url) for name, url in repos if search_term in name.lower()]]. *)
Fixpoint matching (search_term : string) (repos : list repo) : list repo :=
  match repos with
  | [] => []
  | (name, url) :: rest =>
      if PyStr.contains (PyStr.lower name) search_term
      then (name, url) :: matching search_term rest
      else matching search_term rest
  end.

(** The operator edits the [#search-input] field. *)
Definition input_changed (s : t) (value : string) : t :=
  {| repos := repos s; search_input := value;
     filtered_repos := filtered_repos s; repo_list := repo_list s;
     selected_url := selected_url s; dismissed := dismissed s |}.

Definition on_search_changed (s : t) (value : string) : t :=
  let search_term := PyStr.lower value in
  let option_list := [] in
  let filtered := matching search_term (repos s) in
  {| repos := repos s; search_input := search_input s; filtered_repos := filtered;
     repo_list := foldl add_option option_list filtered;
     selected_url := selected_url s; dismissed := dismissed s |}.

(** [str(event.option.id) if event.option.id else None]: an id that is
    [None] or the empty string is false. *)
Definition tracked (id : option string) : option string :=
  match id with
  | Some i => if PyStr.truthy i then Some i else None
  | None => None
  end.

Definition on_option_selected (s : t) (id : option string) : t :=
  {| repos := repos s; search_input := search_input s;
     filtered_repos := filtered_repos s; repo_list := repo_list s;
     selected_url := tracked id; dismissed := dismissed s |}.

Definition on_option_highlighted (s : t) (id : option string) : t :=
  {| repos := repos s; search_input := search_input s;
     filtered_repos := filtered_repos s; repo_list := repo_list s;
     selected_url := tracked id; dismissed := dismissed s |}.

Definition on_select (s : t) : t := dismiss s (selected_url s).

Definition on_clear (s : t) : t := dismiss s (Some "").

Definition action_cancel (s : t) : t := dismiss s None.

(** What reaches the screen: an edit of the search field (the field takes
    the new value and posts [Input.Changed] with it), the two
    messages of the option list with the id of the option concerned, the
    three buttons and the escape key, which is bound to [action_cancel]. *)
Inductive event :=
| SearchChanged (value : string)
| OptionSelected (id : option string)
| OptionHighlighted (id : option string)
| SelectPressed
| ClearPressed
| CancelPressed
| EscapeKey.

Definition handle (ev : event) (s : t) : t :=
  match ev with
  | SearchChanged v => on_search_changed (input_changed s v) v
  | OptionSelected id => on_option_selected s id
  | OptionHighlighted id => on_option_highlighted s id
  | SelectPressed => on_select s
  | ClearPressed => on_clear s
  | CancelPressed | EscapeKey => action_cancel s
  end.

(** The screen receives events until it is dismissed. *)
Fixpoint run (evs : list event) (s : t) : t :=
  match evs with
  | [] => s
  | ev :: evs' =>
      match dismissed s with
      | Some _ => s
      | None => run evs' (handle ev s)
      end
  end.

(** The events that edit the query or move the highlight, as opposed to
    the ones that close the screen. *)
Definition closes (ev : event) : bool :=
  match ev with
  | SelectPressed | ClearPressed | CancelPressed | EscapeKey => true
  | _ => false
  end.

Definition tracks (ev : event) : bool :=
  match ev with
  | OptionSelected _ | OptionHighlighted _ => true
  | _ => false
  end.

End RepoPickerScreen.

(** ** Python [sorted] and [set] *)
Module PyList.

Section Sorted.
Context {A : Type} (key : A → string).

(** Put [x] in front of the first element whose key is not smaller
    than the key of [x]. *)
Fixpoint insert_by (x : A) (l : list A) : list A :=
  match l with
  | [] => [x]
  | y :: l' => if String.ltb (key y) (key x) then y :: insert_by x l' else x :: l
  end.

(** [sorted(l, key=key)]: ascending in the keys, compared with [<],
    and stable: elements with equal keys keep the order of [l]. *)
Definition sorted (l : list A) : list A := foldr insert_by [] l.
End Sorted.

(** [it] is a possible iteration order of [set(xs)]: the distinct
    elements of [xs], each once, in an order that the hash table
    decides. *)
Definition set_iteration {A : Type} (xs it : list A) : Prop :=
  NoDup it ∧ ∀ x, x ∈ it ↔ x ∈ xs.

End PyList.

(** ** The application *)
Module SimpleDevEnvApp.

(** The attributes of the application and the widgets of the main form
    that its handlers write. *)
Record t := mk {
  script_dir : Path;
  target_dir : Path;
  github_repos : list repo;
  selected_repo : string;
  target_dir_display : string;
  repo_display : string;
  status_bar : string;
  log : list string
}.

(** [__init__] followed by [compose]. *)
Definition init (script_dir home : Path) : t :=
  let target := PurePath.truediv home "odoo_projects" in
  {| script_dir := script_dir; target_dir := target; github_repos := [];
     selected_repo := ""; target_dir_display := PurePath.str target;
     repo_display := "(none)"; status_bar := "Ready"; log := [] |}.

Definition set_status_bar (a : t) (text : string) : t :=
  {| script_dir := script_dir a; target_dir := target_dir a; github_repos := github_repos a;
     selected_repo := selected_repo a; target_dir_display := target_dir_display a;
     repo_display := repo_display a; status_bar := text; log := log a |}.

Definition set_github_repos (a : t) (l : list repo) : t :=
  {| script_dir := script_dir a; target_dir := target_dir a; github_repos := l;
     selected_repo := selected_repo a; target_dir_display := target_dir_display a;
     repo_display := repo_display a; status_bar := status_bar a; log := log a |}.

Definition set_log (a : t) (l : list string) : t :=
  {| script_dir := script_dir a; target_dir := target_dir a; github_repos := github_repos a;
     selected_repo := selected_repo a; target_dir_display := target_dir_display a;
     repo_display := repo_display a; status_bar := status_bar a; log := l |}.

Definition update_status (a : t) (message : string) (error success : bool) : t :=
  if error then set_status_bar a ("[bold red]" +:+ message +:+ "[/]")
  else if success then set_status_bar a ("[bold green]" +:+ message +:+ "[/]")
  else set_status_bar a ("[bold]" +:+ message +:+ "[/]").

(** *** Directory picker continuation *)
Definition on_directory_picked (a : t) (path : option Path) : t :=
  match path with
  | Some p =>
      {| script_dir := script_dir a; target_dir := p; github_repos := github_repos a;
         selected_repo := selected_repo a; target_dir_display := PurePath.str p;
         repo_display := repo_display a; status_bar := status_bar a; log := log a |}
  | None => a
  end.

(** [on_browse] and what follows: the picker opens at [Path.home()],
    receives [evs], and its result, if it was dismissed, goes to
    [on_directory_picked]. *)
Definition browse (a : t) (home : Path) (evs : list DirectoryPickerScreen.event)
    (fs : gmap Path Fs.node) : t * gmap Path Fs.node :=
  let '(s, fs') := DirectoryPickerScreen.run evs (DirectoryPickerScreen.init (Some home) home) fs in
  match DirectoryPickerScreen.dismissed s with
  | Some result => (on_directory_picked a result, fs')
  | None => (a, fs')
  end.

(** *** Candidate cache *)

(** One call of [subprocess.run] on [gh repo list]: the tool is not
    installed ([FileNotFoundError]); or the call raises another exception
    (the tool cannot be executed, or its output is not text in the
    locale's encoding: [text=True] decodes what was captured before the
    return code is looked at), of which the handler uses the message; or
    the call returns a code and an output.  The output is what
    [json.loads] and the comprehension over it give: the pairs, or the
    message of the exception they raise. *)
Inductive gh_run :=
| GhNotFound
| GhRaised (message : string)
| GhCompleted (returncode : Z) (stdout : string + list repo).

Inductive exn :=
| FileNotFoundError
| EOFError
| Exception (message : string).

(** [all_repos.extend(...)] guarded by [if result.returncode == 0]. *)
Definition extend_from (all_repos : list repo) (r : gh_run) : exn + list repo :=
  match r with
  | GhNotFound => inl FileNotFoundError
  | GhRaised message => inl (Exception message)
  | GhCompleted returncode stdout =>
      if bool_decide (returncode = 0%Z) then
        match stdout with
        | inl message => inl (Exception message)
        | inr repos => inr (all_repos ++ List.map (λ '(n, u), (n, u)) repos)
        end
      else inr all_repos
  end.

(** The two listing calls in sequence; an exception in the first one
    skips the second. *)
Definition load_all_repos (personal org : gh_run) : exn + list repo :=
  match extend_from [] personal with
  | inl e => inl e
  | inr all_repos => extend_from all_repos org
  end.

(** [key=lambda x: x[0].lower()] *)
Definition sort_key (x : repo) : string := PyStr.lower x.1.

Section OnSelectRepo.
(** The order in which the interpreter iterates over [set(all_repos)]. *)
Variable set_iter : list repo → list repo.

(** [sorted(set(all_repos), key=lambda x: x[0].lower())] *)
Definition build_cache (all_repos : list repo) : list repo :=
  PyList.sorted sort_key (set_iter all_repos).

(** [on_select_repo]: the application afterwards and the screen it
    pushed, if it pushed one. *)
Definition on_select_repo (a : t) (personal org : gh_run)
  : t * option RepoPickerScreen.t :=
  if bool_decide (github_repos a = []) then
    let a := update_status a "Loading GitHub repos..." false false in
    match load_all_repos personal org with
    | inr all_repos =>
        if bool_decide (all_repos = []) then
          (update_status a "Failed to load repos. Is gh authenticated?" true false, None)
        else
          let a := set_github_repos a (build_cache all_repos) in
          let a := update_status a
                     ("Loaded " +:+ pretty (length (github_repos a)) +:+ " repos") false false in
          (a, Some (RepoPickerScreen.init (github_repos a)))
    | inl FileNotFoundError =>
        (update_status a "gh CLI not found. Install it from https://cli.github.com" true false,
         None)
    | inl EOFError =>
        (update_status a "Error loading repos: " true false, None)
    | inl (Exception e) =>
        (update_status a ("Error loading repos: " +:+ e) true false, None)
    end
  else (a, Some (RepoPickerScreen.init (github_repos a))).
End OnSelectRepo.

(** *** Repository picker continuation *)

(** [next((n for n, u in github_repos if u == url), url)] *)
Fixpoint name_of (github_repos : list repo) (url : string) : string :=
  match github_repos with
  | [] => url
  | (n, u) :: rest => if String.eqb u url then n else name_of rest url
  end.

Definition set_selected_repo (a : t) (url display : string) : t :=
  {| script_dir := script_dir a; target_dir := target_dir a; github_repos := github_repos a;
     selected_repo := url; target_dir_display := target_dir_display a;
     repo_display := display; status_bar := status_bar a; log := log a |}.

Definition on_repo_picked (a : t) (url : option string) : t :=
  match url with
  | None => a
  | Some url =>
      if PyStr.truthy url then set_selected_repo a url (name_of (github_repos a) url)
      else set_selected_repo a url "(none)"
  end.

(** The picker opened on the cache receives [evs]; its result, if it was
    dismissed, goes to [on_repo_picked]. *)
Definition pick_repo (a : t) (evs : list RepoPickerScreen.event) : t :=
  let s := RepoPickerScreen.run evs (RepoPickerScreen.init (github_repos a)) in
  match RepoPickerScreen.dismissed s with
  | Some result => on_repo_picked a result
  | None => a
  end.

(** *** Execution handoff *)

(** What the handler does to the terminal, in the order it does it:
    leaving and re-entering the interactive display, printing, running a
    foreground process to its end (the event carries the exit status the
    call returned) and waiting for a line of input. *)
Inductive io :=
| Suspend
| Resume
| Print (text : string)
| SubprocessRun (argv : list string) (env : gmap string string) (cwd : string) (returncode : Z)
| Input.

Global Instance io_eq_dec : EqDecision io.
Proof. solve_decision. Defined.

(** The world around one run: whether [create.sh] is there, the
    environment of the process, the exit status of [bash] ([None] when
    [bash] cannot be started and [subprocess.run] raises
    [FileNotFoundError]), whether [input()] returns a line ([false]: end
    of input, [EOFError]), and whether the context manager of
    [self.suspend()] restores the display when its body raises, which is
    the toolkit's choice. *)
Record world := mkWorld {
  script_exists : bool;
  environ : gmap string string;
  bash_run : option Z;
  input_returns : bool;
  suspend_restores_on_error : bool
}.

Record outcome := mkOutcome {
  app_after : t;
  trace : list io;
  captured : option Z;
  raised : option exn
}.

(** [s * n] *)
Fixpoint str_mul (s : string) (n : nat) : string :=
  match n with
  | O => ""
  | S n' => s +:+ str_mul s n'
  end.

Definition nl : string := String (ascii_of_N 10) "".

Definition rule : string := str_mul "=" 60.

(** What the [with] block prints before it starts the script. *)
Definition banner (a : t) (project_name odoo_version clone_repo : string) : list io :=
  [Print (nl +:+ rule);
   Print ("Setting up " +:+ project_name +:+ " with Odoo " +:+ odoo_version);
   Print ("Target: " +:+ PurePath.str (target_dir a))]
  ++ (if PyStr.truthy clone_repo then [Print ("Clone repo: " +:+ clone_repo)] else [])
  ++ [Print (rule +:+ nl)].

(** What the [with] block does once the script has returned
    [returncode]: the report and the wait for the Enter key. *)
Definition report (returncode : Z) : list io :=
  [Print (nl +:+ rule);
   Print (if bool_decide (returncode = 0%Z) then "Setup completed successfully!"
          else "Setup failed with exit code " +:+ pretty returncode);
   Print "Press Enter to return to the TUI...";
   Input].

(** The body of the [with] block: what it does and the [returncode] it
    leaves in [result], or the exception that ends it. *)
Definition suspended_body (a : t) (w : world) (script_path : Path)
    (env : gmap string string) (project_name odoo_version clone_repo : string)
  : list io * (exn + Z) :=
  match bash_run w with
  | None => (banner a project_name odoo_version clone_repo, inl FileNotFoundError)
  | Some returncode =>
      let ran :=
        banner a project_name odoo_version clone_repo
        ++ [SubprocessRun ["bash"; PurePath.str script_path; project_name; odoo_version]
              env (PurePath.str (script_dir a)) returncode]
        ++ report returncode in
      if input_returns w then (ran, inr returncode) else (ran, inl EOFError)
  end.

(** The environment handed to the script: a copy of the process
    environment with the settings of the form written over it. *)
Definition setup_env (a : t) (w : world) (db_name : string) (install_precommit : bool)
    (clone_repo : string) : gmap string string :=
  let env := environ w in
  let env := <["BASE_PATH" := PurePath.str (target_dir a)]> env in
  let env := if PyStr.truthy db_name then <["DB_NAME" := db_name]> env else env in
  let env := if install_precommit then <["INSTALL_PRECOMMIT" := "1"]> env else env in
  let env := if PyStr.truthy clone_repo then <["CLONE_REPO" := clone_repo]> env else env in
  env.

Definition run_setup (a : t) (w : world)
    (project_name odoo_version db_name : string) (install_precommit : bool)
    (clone_repo : string) : outcome :=
  let script_path := PurePath.truediv (script_dir a) "create.sh" in
  if negb (script_exists w) then
    mkOutcome (update_status a "Setup script not found!" true false) [] None None
  else
    let env := setup_env a w db_name install_precommit clone_repo in
    match suspended_body a w script_path env project_name odoo_version clone_repo with
    | (body, inr returncode) =>
        let a := set_log a [] in
        let a :=
          if bool_decide (returncode = 0%Z) then
            let a := set_log a (log a ++ ["Setup completed for " +:+ project_name]) in
            update_status a "Environment created successfully!" false true
          else
            let a := set_log a (log a ++ ["Setup failed with exit code " +:+ pretty returncode]) in
            update_status a ("Setup failed (exit code " +:+ pretty returncode +:+ ")") true false in
        mkOutcome a ([Suspend] ++ body ++ [Resume]) (Some returncode) None
    | (body, inl e) =>
        mkOutcome a ([Suspend] ++ body ++ (if suspend_restores_on_error w then [Resume] else []))
          None (Some e)
    end.

(** *** Form submission *)

(** [on_create], given what the form's widgets hold: the texts of
    [#project-name] and [#db-name], the value of [#odoo-version] as a
    string and the state of [#precommit].  The result is the outcome of
    the handler and whether it moved the focus to [#project-name]. *)
Definition on_create (a : t) (w : world)
    (project_name_value odoo_version db_name_value : string) (precommit_value : bool)
  : outcome * bool :=
  let project_name := PyStr.strip project_name_value in
  let db_name := PyStr.strip db_name_value in
  let install_precommit := precommit_value in
  let clone_repo := selected_repo a in
  if negb (PyStr.truthy project_name) then
    (mkOutcome (update_status a "Please enter a project name" true false) [] None None, true)
  else if negb (PyStr.isalnum (PyStr.replace (PyStr.replace project_name "-" "") "_" "")) then
    (mkOutcome
       (update_status a "Project name should only contain letters, numbers, - and _" true false)
       [] None None, false)
  else (run_setup a w project_name odoo_version db_name install_precommit clone_repo, false).

End SimpleDevEnvApp.

(** ** Notions of the specification *)

(** The visible subset as the specification words it: the candidates
    whose display name contains the query as a substring, letter case
    ignored, in the order of the full candidate list. *)
Definition visible_subset (candidates : list repo) (query : string) : list repo :=
  List.filter (λ r, PyStr.contains (PyStr.lower r.1) (PyStr.lower query)) candidates.

(** What every state of an open or closed picker satisfies: the full
    candidate list is the one it was opened with, the visible subset and
    the option list are the candidates matching the current query, and the
    tracked identifier is unset or a non-empty string. *)
Definition picker_inv (candidates : list repo) (s : RepoPickerScreen.t) : Prop :=
  RepoPickerScreen.repos s = candidates
  ∧ RepoPickerScreen.filtered_repos s = visible_subset candidates (RepoPickerScreen.search_input s)
  ∧ RepoPickerScreen.repo_list s = RepoPickerScreen.filtered_repos s
  ∧ (RepoPickerScreen.selected_url s = None ∨ ∃ u, u ≠ "" ∧ RepoPickerScreen.selected_url s = Some u).

(** Order of two candidates by display name, letter case ignored. *)
Definition name_le (x y : repo) : Prop := String.le (PyStr.lower x.1) (PyStr.lower y.1).

(** The status line that reports exit status [n] of the provisioning
    script. *)
Definition failure_status (n : Z) : string :=
  "[bold red]Setup failed (exit code " +:+ pretty n +:+ ")[/]".

(** The characters of a string, first to last. *)
Fixpoint chars (s : string) : list ascii :=
  match s with
  | EmptyString => []
  | String c s' => c :: chars s'
  end.

(** The characters a project name may contain besides letters and
    digits. *)
Definition is_joiner (c : ascii) : Prop := c = "-"%char ∨ c = "_"%char.

(** The identifiers that the option list reported in [evs]. *)
Definition reported_ids (evs : list RepoPickerScreen.event) : list string :=
  omap (λ ev, match ev with
              | RepoPickerScreen.OptionSelected (Some u)
              | RepoPickerScreen.OptionHighlighted (Some u) => Some u
              | _ => None
              end) evs.


(** What one listing call contributes to the merged listing: its pairs
    when it ended with status 0 and its output was read, nothing
    otherwise. *)
Definition listed (r : SimpleDevEnvApp.gh_run) : list repo :=
  match r with
  | SimpleDevEnvApp.GhCompleted returncode (inr repos) =>
      if bool_decide (returncode = 0%Z) then repos else []
  | _ => []
  end.


(** The query the operator has typed once [evs] are handled: the text of
    the last edit of the search field, [start] when there was none. *)
Definition last_query (start : string) (evs : list RepoPickerScreen.event) : string :=
  foldl (λ q ev, match ev with RepoPickerScreen.SearchChanged v => v | _ => q end) start evs.

(** Text of the ASCII range, on which the string operations above are
    Python's. *)
Definition ascii_only (s : string) : Prop := Forall (λ c, (N_of_ascii c < 128)%N) (chars s).


(** ** Concrete data for the examples *)

(** A file system with a writable [/root], a read-only [/etc] and a plain
    file [/root/f]. *)
Definition fs_home : gmap Path Fs.node :=
  <[ ["root"] := Fs.Dir true ]> (<[ ["etc"] := Fs.Dir false ]> (<[ ["root"; "f"] := Fs.File ]> ∅)).

(** The merged listing of the specification's example. *)
Definition cache_input : list repo := [("x", "u1"); ("y", "u1"); ("z", "u2")].

(** The application as started from [/opt/simple-devenv] by a user whose
    home is [/home/dev]. *)
Definition app0 : SimpleDevEnvApp.t := SimpleDevEnvApp.init ["opt"; "simple-devenv"] ["home"; "dev"].

(** A world where [create.sh] exists, [bash] exits with status 3 and the
    operator presses Enter. *)
Definition world3 : SimpleDevEnvApp.world :=
  SimpleDevEnvApp.mkWorld true {[ "HOME" := "/home/dev" ]} (Some 3%Z) true false.

(** The application with the example's cache loaded and its third
    repository chosen. *)
Definition app_chosen : SimpleDevEnvApp.t :=
  SimpleDevEnvApp.set_selected_repo (SimpleDevEnvApp.set_github_repos app0 cache_input) "u2" "z".

(** The directory picker opened at [/root] with [/root/a] selected in the
    tree and "sub" typed as the new folder name. *)
Definition picker_at_a : DirectoryPickerScreen.t :=
  DirectoryPickerScreen.input_changed
    (DirectoryPickerScreen.on_directory_selected
       (DirectoryPickerScreen.init (Some ["root"]) ["root"]) ["root"; "a"]) "sub".

(** The directory picker with the read-only [/etc] selected and "x" typed
    as the new folder name. *)
Definition picker_at_etc : DirectoryPickerScreen.t :=
  DirectoryPickerScreen.input_changed
    (DirectoryPickerScreen.on_directory_selected
       (DirectoryPickerScreen.init (Some ["root"]) ["root"]) ["etc"]) "x".

(** * Properties *)

(** ** Sanity checks of the model on concrete inputs *)

Example ex_lower : PyStr.lower "Odoo/Web_Client-18" = "odoo/web_client-18".
Proof. reflexivity. Qed.
Example ex_strip : PyStr.strip "  sub dir  " = "sub dir".
Proof. reflexivity. Qed.
Example ex_contains : PyStr.contains "abc" "bc" = true ∧ PyStr.contains "abc" "" = true
                      ∧ PyStr.contains "abc" "ac" = false.
Proof. repeat split. Qed.
Example ex_truediv : PurePath.truediv ["root"; "a"] "sub" = ["root"; "a"; "sub"]
  ∧ PurePath.truediv ["root"; "a"] "x//y/./z/" = ["root"; "a"; "x"; "y"; "z"]
  ∧ PurePath.truediv ["root"; "a"] "/etc" = ["etc"]
  ∧ PurePath.str ["root"; "a"] = "/root/a" ∧ PurePath.str [] = "/".
Proof. repeat split. Qed.
Example ex_filter : FilteredDirectoryTree.filter_paths
   [["h"; "src"]; ["h"; ".git"]; ["h"; "a.b"]; []; ["h"; ".."]] = [["h"; "src"]; ["h"; "a.b"]; []].
Proof. reflexivity. Qed.

Example ex_mkdir_deep :
  let '(fs', e) := Fs.mkdir fs_home ["root"; "a"; "b"; "sub"] true true in
  e = None ∧ fs' !! ["root"; "a"] = Some (Fs.Dir true)
  ∧ fs' !! ["root"; "a"; "b"; "sub"] = Some (Fs.Dir true)
  ∧ Fs.is_dir fs' ["root"; "a"; ".."; "a"; "b"] = true.
Proof. vm_compute. repeat split. Qed.
Example ex_mkdir_errors :
  (Fs.mkdir fs_home ["etc"; "x"] true true).2 = Some (Fs.mkOSError Fs.EACCES ["etc"; "x"])
  ∧ (Fs.mkdir fs_home ["root"; "f"] true true).2 = Some (Fs.mkOSError Fs.EEXIST ["root"; "f"])
  ∧ (Fs.mkdir fs_home ["root"; "f"; "x"] true true).2 = Some (Fs.mkOSError Fs.ENOTDIR ["root"; "f"; "x"])
  ∧ (Fs.mkdir fs_home ["root"; "x"; "y"] false true).2 = Some (Fs.mkOSError Fs.ENOENT ["root"; "x"; "y"])
  ∧ (Fs.mkdir fs_home ["root"] true true).2 = None
  ∧ (Fs.mkdir fs_home ["root"] true false).2 = Some (Fs.mkOSError Fs.EEXIST ["root"])
  ∧ Fs.OSError_str (Fs.mkOSError Fs.EACCES ["etc"; "x"]) = "[Errno 13] Permission denied: '/etc/x'".
Proof. vm_compute. repeat split. Qed.

Example ex_mkdir_long_name :
  (Fs.mkdir fs_home ["root"; SimpleDevEnvApp.str_mul "n" 256] true true).2
  = Some (Fs.mkOSError Fs.ENAMETOOLONG ["root"; SimpleDevEnvApp.str_mul "n" 256]).
Proof. vm_compute. reflexivity. Qed.
Example ex_gh_missing :
  SimpleDevEnvApp.on_select_repo remove_dups app0 SimpleDevEnvApp.GhNotFound SimpleDevEnvApp.GhNotFound
  = (SimpleDevEnvApp.set_status_bar app0
       "[bold red]gh CLI not found. Install it from https://cli.github.com[/]", None).
Proof. reflexivity. Qed.
Example ex_gh_raises :
  SimpleDevEnvApp.on_select_repo remove_dups app0
    (SimpleDevEnvApp.GhRaised "'utf-8' codec can't decode byte 0xff")
    (SimpleDevEnvApp.GhCompleted 0 (inr [("org/b", "u2")]))
  = (SimpleDevEnvApp.set_status_bar app0
       "[bold red]Error loading repos: 'utf-8' codec can't decode byte 0xff[/]", None).
Proof. reflexivity. Qed.
Example ex_gh_one_source_fails :
  let r := SimpleDevEnvApp.on_select_repo remove_dups app0
             (SimpleDevEnvApp.GhCompleted 1 (inr []))
             (SimpleDevEnvApp.GhCompleted 0 (inr [("org/b", "u2"); ("Org/a", "u1")])) in
  SimpleDevEnvApp.github_repos r.1 = [("Org/a", "u1"); ("org/b", "u2")]
  ∧ SimpleDevEnvApp.status_bar r.1 = "[bold]Loaded 2 repos[/]"
  ∧ (RepoPickerScreen.repo_list <$> r.2) = Some [("Org/a", "u1"); ("org/b", "u2")].
Proof. vm_compute. repeat split. Qed.
Example ex_gh_all_sources_fail :
  SimpleDevEnvApp.on_select_repo remove_dups app0
    (SimpleDevEnvApp.GhCompleted 4 (inr [])) (SimpleDevEnvApp.GhCompleted 4 (inr []))
  = (SimpleDevEnvApp.set_status_bar app0 "[bold red]Failed to load repos. Is gh authenticated?[/]",
     None).
Proof. reflexivity. Qed.
Example ex_search :
  let s := RepoPickerScreen.run
             [RepoPickerScreen.SearchChanged "ORG"; RepoPickerScreen.OptionHighlighted (Some "u1");
              RepoPickerScreen.SearchChanged "b"; RepoPickerScreen.SelectPressed]
             (RepoPickerScreen.init [("Org/a", "u1"); ("org/b", "u2"); ("me/c", "u3")]) in
  RepoPickerScreen.filtered_repos s = [("org/b", "u2")]
  ∧ RepoPickerScreen.dismissed s = Some (Some "u1").
Proof. vm_compute. repeat split. Qed.
Example ex_replace :
  PyStr.replace "my-proj_18" "-" "" = "myproj_18"
  ∧ PyStr.replace "aaa" "aa" "b" = "ba"
  ∧ PyStr.replace "a--b" "--" "+" = "a+b".
Proof. repeat split. Qed.
Example ex_validation :
  (SimpleDevEnvApp.on_create app0 world3 "my proj!" "18.0" "" false).1
  = SimpleDevEnvApp.mkOutcome
      (SimpleDevEnvApp.set_status_bar app0
         "[bold red]Project name should only contain letters, numbers, - and _[/]") [] None None
  ∧ SimpleDevEnvApp.captured
      (SimpleDevEnvApp.on_create app0 world3 " my-proj_18 " "18.0" "" false).1 = Some 3%Z
  ∧ (SimpleDevEnvApp.on_create app0 world3 "---" "18.0" "" false).1
    = (SimpleDevEnvApp.on_create app0 world3 "my proj!" "18.0" "" false).1.
Proof. vm_compute. repeat split. Qed.
Example ex_cache : SimpleDevEnvApp.build_cache remove_dups cache_input = cache_input
  ∧ SimpleDevEnvApp.build_cache remove_dups
      [("org/b", "u2"); ("Org/a", "u1"); ("org/b", "u2"); ("org/B", "u3")]
    = [("Org/a", "u1"); ("org/b", "u2"); ("org/B", "u3")].
Proof. vm_compute. repeat split. Qed.

Example ex_run_setup :
  let o := SimpleDevEnvApp.run_setup app0 world3 "my-proj_18" "18.0" "" false "" in
  SimpleDevEnvApp.captured o = Some 3%Z
  ∧ SimpleDevEnvApp.status_bar (SimpleDevEnvApp.app_after o) = "[bold red]Setup failed (exit code 3)[/]"
  ∧ SimpleDevEnvApp.log (SimpleDevEnvApp.app_after o) = ["Setup failed with exit code 3"]
  ∧ length (SimpleDevEnvApp.trace o) = 11.
Proof. vm_compute. repeat split. Qed.

(** ** Strings *)

Lemma append_String (c : ascii) (s t : string) : String c s +:+ t = String c (s +:+ t).
Proof. reflexivity. Qed.

Lemma append_empty_l (t : string) : "" +:+ t = t.
Proof. reflexivity. Qed.

Lemma startswith_spec (s p : string) :
  PyStr.startswith s p = true ↔ ∃ rest, s = p +:+ rest.
Proof.
  revert s. induction p as [|a p IH]; intros [|b s]; simpl.
  - split; [intros _; by exists "" | done].
  - split; [intros _; by exists (String b s) | done].
  - split; [done | intros [rest ?]; discriminate].
  - setoid_rewrite append_String. case_decide as Hab.
    + subst b. rewrite IH. split; intros [rest Hr]; exists rest; congruence.
    + split; [done | intros [rest Hr]; congruence].
Qed.

Lemma startswith_empty (s : string) : PyStr.startswith s "" = true.
Proof. by destruct s. Qed.

Lemma contains_spec (s sub : string) :
  PyStr.contains s sub = true ↔ ∃ pre post, s = pre +:+ sub +:+ post.
Proof.
  induction s as [|c s IH].
  - change (PyStr.contains "" sub) with (PyStr.startswith "" sub || false).
    rewrite orb_false_r, startswith_spec. split.
    + intros [rest ->]. by exists "", rest.
    + intros [[|? pre] [post Hs]]; [by exists post | discriminate].
  - change (PyStr.contains (String c s) sub)
      with (PyStr.startswith (String c s) sub || PyStr.contains s sub).
    rewrite orb_true_iff, IH, startswith_spec. split.
    + intros [[rest Hs] | (pre & post & ->)].
      * by exists "", rest.
      * by exists (String c pre), post.
    + intros [[|c' pre] [post Hs]].
      * left. by exists post.
      * right. exists pre, post. rewrite append_String in Hs. congruence.
Qed.

Lemma contains_empty (s : string) : PyStr.contains s "" = true.
Proof. destruct s; simpl; by rewrite ?startswith_empty. Qed.

Lemma truthy_spec (s : string) : PyStr.truthy s = true ↔ s ≠ "".
Proof.
  unfold PyStr.truthy. rewrite negb_true_iff.
  destruct (String.eqb_spec s ""); split; congruence.
Qed.

(** ** Path Filter *)

Lemma filter_paths_filter (paths : list Path) :
  FilteredDirectoryTree.filter_paths paths
  = List.filter (λ p, negb (PyStr.startswith (PurePath.name p) ".")) paths.
Proof.
  induction paths as [|p rest IH]; simpl; [done |].
  rewrite IH. by destruct (negb _).
Qed.

Lemma list_filter_sublist {A} (f : A → bool) (l : list A) : List.filter f l `sublist_of` l.
Proof.
  induction l as [|x l IH]; simpl; [constructor |].
  destruct (f x); by constructor.
Qed.

Lemma list_filter_length_split {A} (f : A → bool) (l : list A) :
  length (List.filter f l) + length (List.filter (λ x, negb (f x)) l) = length l.
Proof.
  induction l as [|x l IH]; simpl; [done |].
  destruct (f x); simpl; lia.
Qed.

(** C9. For every sequence of directory entries, [filter_paths] returns
    the subsequence of the entries whose name does not start with a dot:
    it is the input filtered by that test, hence an order-preserving
    subsequence of unmodified entries; an entry is in the output exactly
    when it is in the input and its name is not dot-prefixed; and the
    number of entries removed is the number of dot-prefixed ones. *)
Theorem filter_paths_hidden_subsequence (paths : list Path) :
  let kept := FilteredDirectoryTree.filter_paths paths in
  kept = List.filter (λ p, negb (PyStr.startswith (PurePath.name p) ".")) paths
  ∧ kept `sublist_of` paths
  ∧ (∀ p, p ∈ kept ↔ p ∈ paths ∧ ¬ ∃ rest, PurePath.name p = "." +:+ rest)
  ∧ length kept + length (List.filter (λ p, PyStr.startswith (PurePath.name p) ".") paths)
    = length paths.
Proof.
  cbv zeta. rewrite filter_paths_filter. split_and!.
  - done.
  - apply list_filter_sublist.
  - intros p. rewrite !list_elem_of_In, filter_In, negb_true_iff, <-startswith_spec.
    by destruct (PyStr.startswith _ _); intuition.
  - rewrite <-(list_filter_length_split (λ p, negb (PyStr.startswith (PurePath.name p) ".")) paths).
    f_equal. f_equal. apply filter_ext. intros p. by rewrite negb_involutive.
Qed.

(** ** Repository Picker *)

Lemma last_cons_default {A} (x d : A) (l : list A) : List.last (x :: l) d = List.last l x.
Proof.
  revert x d. induction l as [|y l IH]; intros x d; [done |].
  change (List.last (x :: y :: l) d) with (List.last (y :: l) d).
  by rewrite !(IH y).
Qed.

Section RepoPicker.
Import RepoPickerScreen.

Lemma foldl_add_option (acc l : list repo) : foldl add_option acc l = acc ++ l.
Proof.
  revert acc. induction l as [|o l IH]; intros acc; simpl.
  - by rewrite app_nil_r.
  - rewrite IH. unfold add_option. by rewrite <-app_assoc.
Qed.

Lemma matching_visible_subset (search_term : string) (l : list repo) :
  matching search_term l
  = List.filter (λ r, PyStr.contains (PyStr.lower r.1) search_term) l.
Proof.
  induction l as [|[name url] l IH]; simpl; [done |].
  rewrite IH. by destruct (PyStr.contains _ _).
Qed.

Lemma visible_subset_empty_query (l : list repo) : visible_subset l "" = l.
Proof.
  unfold visible_subset. induction l as [|r l IH]; simpl in *; [done |].
  by rewrite contains_empty, IH.
Qed.

Lemma init_repo_list (l : list repo) : repo_list (init l) = l.
Proof.
  simpl. induction l as [|[n u] l IH]; simpl; [done | by rewrite IH].
Qed.

Lemma tracked_cases (id : option string) :
  tracked id = None ∨ ∃ u, u ≠ "" ∧ tracked id = Some u.
Proof.
  destruct id as [i|]; simpl; [| by left].
  destruct (PyStr.truthy i) eqn:Hi; [| by left].
  right. exists i. by rewrite <-truthy_spec.
Qed.

Lemma picker_inv_init (candidates : list repo) : picker_inv candidates (init candidates).
Proof.
  unfold picker_inv. rewrite init_repo_list. simpl.
  rewrite visible_subset_empty_query. auto.
Qed.

Lemma picker_inv_handle (candidates : list repo) (ev : event) (s : t) :
  picker_inv candidates s → picker_inv candidates (handle ev s).
Proof.
  intros (Hr & Hf & Hl & Hu). destruct ev; simpl; unfold picker_inv; simpl;
    try (split_and!; [done | done | done | done || apply tracked_cases]).
  rewrite foldl_add_option, matching_visible_subset, Hr. auto.
Qed.

Lemma picker_inv_run (candidates : list repo) (evs : list event) (s : t) :
  picker_inv candidates s → picker_inv candidates (run evs s).
Proof.
  revert s. induction evs as [|ev evs IH]; intros s Hs; simpl; [done |].
  destruct (dismissed s); [done |]. by apply IH, picker_inv_handle.
Qed.

Lemma repo_run_snoc (evs : list event) (ev : event) (s : t) :
  run (evs ++ [ev]) s
  = match dismissed (run evs s) with
    | Some _ => run evs s
    | None => handle ev (run evs s)
    end.
Proof.
  revert s. induction evs as [|e evs IH]; intros s; simpl.
  - by destruct (dismissed s).
  - destruct (dismissed s) eqn:Hd; [by rewrite Hd | apply IH].
Qed.

(** Events that neither close the picker nor move the highlight leave the
    tracked identifier and the open state as they are. *)
Lemma run_queries_untracked (queries : list string) (s : t) :
  dismissed s = None →
  dismissed (run (SearchChanged <$> queries) s) = None
  ∧ selected_url (run (SearchChanged <$> queries) s) = selected_url s.
Proof.
  revert s. induction queries as [|q qs IH]; intros s Hs; [done |].
  rewrite fmap_cons. cbn [run]. rewrite Hs.
  exact (IH (handle (SearchChanged q) s) Hs).
Qed.

Lemma run_search_input (evs : list event) (s : t) :
  dismissed (run evs s) = None →
  search_input (run evs s) = last_query (search_input s) evs.
Proof.
  revert s. induction evs as [|ev evs IH]; intros s; [done |].
  cbn [run last_query foldl]. destruct (dismissed s) eqn:Hd.
  - intros Hopen. congruence.
  - intros Hopen. rewrite (IH _ Hopen). by destruct ev.
Qed.

Lemma last_query_queries (start : string) (queries : list string) :
  last_query start (SearchChanged <$> queries) = List.last queries start.
Proof.
  revert start. induction queries as [|q qs IH]; intros start; [done |].
  rewrite fmap_cons, last_cons_default. cbn [last_query foldl]. apply IH.
Qed.

Lemma last_query_snoc (start q : string) (evs : list event) :
  last_query start (evs ++ [SearchChanged q]) = q.
Proof. unfold last_query. by rewrite foldl_app. Qed.

(** C7. The visible subset is a function of the current query and the
    full candidate list, whatever was typed before: in every state the
    picker reaches, [filtered_repos] (and the option list shown) is the
    list of the candidates whose lower-cased name contains the lower-cased
    query, in the order of the candidate list; so typing "ab" and then "a"
    shows what typing "a" shows.  The current query is the text of the
    last edit of the search field among the events handled: while the
    picker is open the visible subset is the one of that text, and it is
    the full list before any edit. *)
Theorem repo_filter_history_independent (candidates : list repo) (evs : list event) :
  let s := run evs (init candidates) in
  filtered_repos s = visible_subset candidates (search_input s)
  ∧ repo_list s = filtered_repos s
  ∧ repos s = candidates
  ∧ filtered_repos (run [SearchChanged "ab"; SearchChanged "a"] (init candidates))
    = filtered_repos (run [SearchChanged "a"] (init candidates))
  ∧ (∀ q, visible_subset candidates q `sublist_of` candidates)
  ∧ (∀ q r, r ∈ visible_subset candidates q
       ↔ r ∈ candidates ∧ ∃ pre post, PyStr.lower r.1 = pre +:+ PyStr.lower q +:+ post)
  ∧ filtered_repos (init candidates) = candidates
  ∧ (dismissed s = None →
       search_input s = last_query "" evs
       ∧ filtered_repos s = visible_subset candidates (last_query "" evs)
       ∧ repo_list s = visible_subset candidates (last_query "" evs))
  ∧ (∀ q, dismissed s = None →
       filtered_repos (run (evs ++ [SearchChanged q]) (init candidates))
       = visible_subset candidates q
       ∧ repo_list (run (evs ++ [SearchChanged q]) (init candidates))
         = visible_subset candidates q)
  ∧ (∀ queries,
       filtered_repos (run (SearchChanged <$> queries) (init candidates))
       = visible_subset candidates (List.last queries ""))
  ∧ filtered_repos (run [SearchChanged "ab"; SearchChanged "a"] (init candidates))
    = visible_subset candidates "a".
Proof.
  cbv zeta.
  destruct (picker_inv_run candidates evs _ (picker_inv_init candidates)) as (Hr & Hf & Hl & _).
  assert (Hopen : ∀ evs', dismissed (run evs' (init candidates)) = None →
            search_input (run evs' (init candidates)) = last_query "" evs'
            ∧ filtered_repos (run evs' (init candidates))
              = visible_subset candidates (last_query "" evs')
            ∧ repo_list (run evs' (init candidates))
              = visible_subset candidates (last_query "" evs')).
  { intros evs' Hd.
    destruct (picker_inv_run candidates evs' _ (picker_inv_init candidates))
      as (_ & Hf' & Hl' & _).
    rewrite Hl', Hf', (run_search_input evs' _ Hd). done. }
  split_and!; try done.
  - intros q. apply list_filter_sublist.
  - intros q r. unfold visible_subset.
    by rewrite !list_elem_of_In, filter_In, contains_spec.
  - by apply Hopen.
  - intros q Hd.
    assert (Hd' : dismissed (run (evs ++ [SearchChanged q]) (init candidates)) = None).
    { rewrite repo_run_snoc, Hd. exact Hd. }
    destruct (Hopen _ Hd') as (_ & H1 & H2). by rewrite last_query_snoc in H1, H2.
  - intros queries.
    destruct (run_queries_untracked queries (init candidates) eq_refl) as [Hd _].
    destruct (Hopen _ Hd) as (_ & H1 & _). by rewrite last_query_queries in H1.
  - exact (proj1 (proj2 (Hopen [SearchChanged "ab"; SearchChanged "a"] eq_refl))).
Qed.

(** C8. In every state of the picker, tracked identifier or not, Clear
    dismisses with the empty string and Cancel (button or escape key)
    dismisses with no result; Select, in a state the picker can reach,
    dismisses with no result or with a non-empty identifier.  A chosen
    identifier, the empty string and no result are pairwise different. *)
Theorem repo_picker_clear_cancel_outcomes (s : t) :
  dismissed (on_clear s) = Some (Some "")
  ∧ dismissed (handle ClearPressed s) = Some (Some "")
  ∧ dismissed (action_cancel s) = Some None
  ∧ dismissed (handle CancelPressed s) = Some None
  ∧ dismissed (handle EscapeKey s) = Some None
  ∧ (∀ candidates evs,
       let r := run evs (init candidates) in
       dismissed (on_select r) = Some None
       ∨ ∃ u, u ≠ "" ∧ dismissed (on_select r) = Some (Some u))
  ∧ (∀ u : string, u ≠ "" → Some u ≠ Some "" ∧ Some u ≠ None ∧ Some "" ≠ (None : option string)).
Proof.
  split_and!; try done.
  - intros candidates evs.
    destruct (picker_inv_run candidates evs _ (picker_inv_init candidates))
      as (_ & _ & _ & [Hu | (u & Hne & Hu)]); simpl; rewrite Hu; [by left |].
    right. by exists u.
  - intros u Hu. split_and!; congruence.
Qed.

End RepoPicker.

(** ** Repository picker continuation *)

Section RepoPicked.
Import SimpleDevEnvApp.

(** C2, as the claim states it, fails: with a repository chosen before,
    Select without a highlight returns no result and the form keeps the
    earlier choice, whereas the empty string clears it. *)
Lemma null_select_differs_from_clear :
  RepoPickerScreen.dismissed (RepoPickerScreen.run [RepoPickerScreen.SelectPressed]
       (RepoPickerScreen.init (github_repos app_chosen))) = Some None
  ∧ selected_repo (on_repo_picked app_chosen None) = "u2"
  ∧ repo_display (on_repo_picked app_chosen None) = "z"
  ∧ selected_repo (on_repo_picked app_chosen (Some "")) = ""
  ∧ repo_display (on_repo_picked app_chosen (Some "")) = "(none)"
  ∧ on_repo_picked app_chosen None ≠ on_repo_picked app_chosen (Some "")
  ∧ pick_repo app_chosen [RepoPickerScreen.SelectPressed]
    ≠ pick_repo app_chosen [RepoPickerScreen.ClearPressed].
Proof. split_and!; try reflexivity; discriminate. Qed.

(** C2, amended.  When Select is pressed after any edits of the query but
    no highlight, the picker returns no result, and the continuation
    treats no result as a cancellation: the form state is unchanged.  The
    empty string instead clears the chosen repository and shows "(none)".
    The two states agree exactly when the form was already cleared. *)
Theorem null_select_is_cancellation (a : SimpleDevEnvApp.t) (queries : list string) :
  RepoPickerScreen.dismissed
    (RepoPickerScreen.run
       ((RepoPickerScreen.SearchChanged <$> queries) ++ [RepoPickerScreen.SelectPressed])
       (RepoPickerScreen.init (github_repos a))) = Some None
  ∧ pick_repo a ((RepoPickerScreen.SearchChanged <$> queries) ++ [RepoPickerScreen.SelectPressed])
    = a
  ∧ on_repo_picked a None = a
  ∧ on_repo_picked a (Some "") = set_selected_repo a "" "(none)"
  ∧ (on_repo_picked a None = on_repo_picked a (Some "")
     ↔ selected_repo a = "" ∧ repo_display a = "(none)").
Proof.
  assert (Hrun : RepoPickerScreen.dismissed
    (RepoPickerScreen.run
       ((RepoPickerScreen.SearchChanged <$> queries) ++ [RepoPickerScreen.SelectPressed])
       (RepoPickerScreen.init (github_repos a))) = Some None).
  { rewrite repo_run_snoc.
    destruct (run_queries_untracked queries (RepoPickerScreen.init (github_repos a)) eq_refl) as [Hd Hu].
    rewrite Hd. simpl. by rewrite Hu. }
  split_and!; try done.
  - unfold pick_repo. by rewrite Hrun.
  - simpl. split.
    + intros ->. done.
    + intros [Hs Hd]. destruct a; simpl in *; by subst.
Qed.

End RepoPicked.

(** ** Directory Picker *)

Section DirectoryPicker.
Import DirectoryPickerScreen.

Lemma dir_run_snoc (evs : list event) (ev : event) (s : t) (fs : gmap Path Fs.node) :
  run (evs ++ [ev]) s fs
  = match dismissed (run evs s fs).1 with
    | Some _ => run evs s fs
    | None => handle ev (run evs s fs).1 (run evs s fs).2
    end.
Proof.
  revert s fs. induction evs as [|e evs IH]; intros s fs; simpl.
  - destruct (dismissed s); [done |]. by destruct (handle ev s fs).
  - destruct (dismissed s) eqn:Hd; simpl; [by rewrite Hd |].
    destruct (handle e s fs) as [s' fs']. apply IH.
Qed.

(** Tree selections alone keep the picker open, the start path and the
    file system as they are, and leave the last selected path tracked. *)
Lemma run_selections (sels : list Path) (s : t) (fs : gmap Path Fs.node) :
  dismissed s = None →
  let r := run (DirectorySelected <$> sels) s fs in
  dismissed r.1 = None ∧ start_path r.1 = start_path s ∧ r.2 = fs
  ∧ selected_path r.1 = List.last (Some <$> sels) (selected_path s).
Proof.
  revert s. induction sels as [|p sels IH]; intros s Hs; [done |].
  rewrite fmap_cons. cbn [run]. rewrite Hs. cbn [handle].
  destruct (IH (on_directory_selected s p) Hs) as (Hd & Hst & Hfs & Hsel).
  split_and!; try done.
  rewrite Hsel. cbn [on_directory_selected selected_path].
  by rewrite fmap_cons, last_cons_default.
Qed.

Lemma last_fmap_Some {A} (l : list A) (d : A) : List.last (Some <$> l) (Some d) = Some (List.last l d).
Proof.
  revert d. induction l as [|x l IH]; intros d; [done |].
  by rewrite fmap_cons, !last_cons_default, IH.
Qed.

Lemma dir_cancel_after_selections
    (start home : Path) (sels : list Path) (fs : gmap Path Fs.node) (ev : event) :
  ev = CancelPressed ∨ ev = EscapeKey →
  dismissed (run ((DirectorySelected <$> sels) ++ [ev]) (init (Some start) home) fs).1 = Some None.
Proof.
  intros Hev. rewrite dir_run_snoc.
  destruct (run_selections sels (init (Some start) home) fs eq_refl) as (Hd & _).
  rewrite Hd. by destruct Hev as [-> | ->].
Qed.

(** C4. For every start path and every sequence of tree selections:
    Select returns the start path when nothing was selected and the last
    selected path otherwise, never no result; Cancel and the escape key
    return no result. *)
Theorem directory_picker_select_cancel
    (start home : Path) (sels : list Path) (fs : gmap Path Fs.node) :
  let opened := init (Some start) home in
  let evs := DirectorySelected <$> sels in
  dismissed (run [SelectPressed] opened fs).1 = Some (Some start)
  ∧ (∀ P, dismissed (run (evs ++ [DirectorySelected P; SelectPressed]) opened fs).1
          = Some (Some P))
  ∧ dismissed (run (evs ++ [SelectPressed]) opened fs).1 = Some (Some (List.last sels start))
  ∧ dismissed (run (evs ++ [CancelPressed]) opened fs).1 = Some None
  ∧ dismissed (run (evs ++ [EscapeKey]) opened fs).1 = Some None
  ∧ dismissed (run (evs ++ [SelectPressed]) opened fs).1
    ≠ dismissed (run (evs ++ [CancelPressed]) opened fs).1.
Proof.
  cbv zeta.
  assert (Hsel : dismissed (run ((DirectorySelected <$> sels) ++ [SelectPressed])
                   (init (Some start) home) fs).1 = Some (Some (List.last sels start))).
  { rewrite dir_run_snoc.
    destruct (run_selections sels (init (Some start) home) fs eq_refl) as (Hd & Hst & _ & Hs).
    rewrite Hd. cbn [handle on_select dismiss dismissed fst].
    rewrite Hs, Hst. cbn [init selected_path start_path default].
    destruct sels as [|p sels]; [done |].
    by rewrite fmap_cons, !last_cons_default, last_fmap_Some. }
  pose proof (dir_cancel_after_selections start home sels fs) as Hcan.
  split_and!.
  - done.
  - intros P.
    replace ((DirectorySelected <$> sels) ++ [DirectorySelected P; SelectPressed])
      with ((DirectorySelected <$> (sels ++ [P])) ++ [SelectPressed])
      by (by rewrite fmap_app, <-app_assoc).
    rewrite dir_run_snoc.
    destruct (run_selections (sels ++ [P]) (init (Some start) home) fs eq_refl)
      as (Hd & Hst & _ & Hs).
    rewrite Hd. cbn [handle on_select dismiss dismissed fst].
    rewrite Hs, (fmap_app Some sels [P]). cbn [fmap list_fmap]. by rewrite last_last.
  - done.
  - apply Hcan. by left.
  - apply Hcan. by right.
  - rewrite Hsel, (Hcan CancelPressed) by (by left). discriminate.
Qed.

(** C10. A picker dismissed with no result leaves the form as it was:
    [on_directory_picked] with no result is the identity, a path result
    sets the target directory and its display to that path and nothing
    else, and whenever the form differs after the picker closed, the
    picker returned a path. *)
Theorem cancelled_directory_picker_keeps_target (a : SimpleDevEnvApp.t) :
  SimpleDevEnvApp.on_directory_picked a None = a
  ∧ (∀ p, SimpleDevEnvApp.target_dir (SimpleDevEnvApp.on_directory_picked a (Some p)) = p
          ∧ SimpleDevEnvApp.target_dir_display (SimpleDevEnvApp.on_directory_picked a (Some p))
            = PurePath.str p)
  ∧ (∀ r, SimpleDevEnvApp.on_directory_picked a r ≠ a → r ≠ None)
  ∧ (∀ home evs fs,
       dismissed (run evs (init (Some home) home) fs).1 = Some None →
       (SimpleDevEnvApp.browse a home evs fs).1 = a)
  ∧ (∀ home sels fs,
       (SimpleDevEnvApp.browse a home ((DirectorySelected <$> sels) ++ [CancelPressed]) fs).1 = a
       ∧ (SimpleDevEnvApp.browse a home ((DirectorySelected <$> sels) ++ [EscapeKey]) fs).1 = a)
  ∧ (∀ home evs fs,
       (SimpleDevEnvApp.browse a home evs fs).1 ≠ a →
       ∃ p, dismissed (run evs (init (Some home) home) fs).1 = Some (Some p)).
Proof.
  assert (Hnone : ∀ home evs fs,
       dismissed (run evs (init (Some home) home) fs).1 = Some None →
       (SimpleDevEnvApp.browse a home evs fs).1 = a).
  { intros home evs fs Hd. unfold SimpleDevEnvApp.browse.
    destruct (run evs _ fs) as [s fs']. simpl in Hd. by rewrite Hd. }
  split_and!; try done.
  - intros r Hr ->. by apply Hr.
  - intros home sels fs.
    split; apply Hnone, dir_cancel_after_selections; auto.
  - intros home evs fs Hne. unfold SimpleDevEnvApp.browse in Hne.
    destruct (run evs _ fs) as [s fs']. simpl in *.
    destruct (dismissed s) as [[p|]|]; [by exists p | done | done].
Qed.

End DirectoryPicker.

(** ** Execution Handoff *)

Section Handoff.
Import SimpleDevEnvApp.

Lemma append_length (s t : string) : String.length (s +:+ t) = String.length s + String.length t.
Proof. induction s as [|c s IH]; simpl; [done | by rewrite IH]. Qed.

Lemma append_inj_r (t s1 s2 : string) : s1 +:+ t = s2 +:+ t → s1 = s2.
Proof.
  revert s2. induction s1 as [|a s1 IH]; intros [|b s2] H.
  - done.
  - apply (f_equal String.length) in H.
    rewrite append_empty_l, append_length in H. simpl in H. lia.
  - apply (f_equal String.length) in H.
    rewrite append_empty_l, append_length in H. simpl in H. lia.
  - rewrite !append_String in H. injection H as -> H. f_equal. by apply IH.
Qed.

Lemma append_assoc (s t u : string) : (s +:+ t) +:+ u = s +:+ (t +:+ u).
Proof. induction s as [|c s IH]; [done |]. by rewrite !append_String, IH. Qed.

Lemma failure_status_markup (n : Z) :
  "[bold red]" +:+ ("Setup failed (exit code " +:+ pretty n +:+ ")") +:+ "[/]"
  = failure_status n.
Proof.
  unfold failure_status.
  change ("[bold red]Setup failed (exit code " +:+ pretty n +:+ ")[/]")
    with ("[bold red]" +:+ ("Setup failed (exit code " +:+ (pretty n +:+ (")" +:+ "[/]")))).
  by rewrite <-!append_assoc.
Qed.

Lemma failure_status_inj (m n : Z) : failure_status m = failure_status n → m = n.
Proof.
  unfold failure_status. intros H.
  apply (inj (String.append _)) in H. apply append_inj_r in H.
  by apply (inj pretty) in H.
Qed.

Lemma banner_prints (a : t) (project_name odoo_version clone_repo : string) :
  Forall (λ e, ∃ text, e = Print text) (banner a project_name odoo_version clone_repo).
Proof.
  unfold banner. destruct (PyStr.truthy clone_repo); simpl;
    repeat first [apply Forall_nil | apply Forall_cons; split]; eauto.
Qed.

Lemma report_prints_then_waits (n : Z) :
  Forall (λ e, e = Input ∨ ∃ text, e = Print text) (report n) ∧ Input ∈ report n.
Proof.
  unfold report. split.
  - repeat first [apply Forall_nil | apply Forall_cons; split]; eauto.
  - rewrite !elem_of_cons. auto.
Qed.

Lemma count_prints (e : io) (l : list io) :
  (∀ text, e ≠ Print text) → e ≠ Input →
  Forall (λ e', e' = Input ∨ ∃ text, e' = Print text) l →
  List.filter (λ e', bool_decide (e' = e)) l = [].
Proof.
  intros Hp Hi. induction 1 as [|e' l He' _ IH]; simpl; [done |].
  rewrite bool_decide_eq_false_2; [done |].
  intros ->. destruct He' as [? | [text ?]]; [done | by eapply Hp].
Qed.

(** C3. For every exit status [n] of the provisioning script: when
    [create.sh] exists, [bash] runs to its end with status [n] and the
    operator acknowledges, the status captured is [n]; the trace of the
    handler is one suspension, the body with the one foreground run that
    returned [n], and one resumption after it; a non-zero [n] appears in
    decimal in the status line and the log line, different statuses giving
    different status lines; zero gives the success line. *)
Theorem handoff_returns_exit_status (a : t) (w : world) (n : Z)
    (project_name odoo_version db_name : string) (install_precommit : bool)
    (clone_repo : string) :
  script_exists w = true →
  bash_run w = Some n →
  input_returns w = true →
  let o := run_setup a w project_name odoo_version db_name install_precommit clone_repo in
  captured o = Some n
  ∧ raised o = None
  ∧ (∃ before after env,
       trace o = [Suspend] ++ before
                 ++ [SubprocessRun
                       ["bash"; PurePath.str (PurePath.truediv (script_dir a) "create.sh");
                        project_name; odoo_version]
                       env (PurePath.str (script_dir a)) n]
                 ++ after ++ [Resume]
       ∧ env !! "BASE_PATH" = Some (PurePath.str (target_dir a))
       ∧ Forall (λ e, ∃ text, e = Print text) before
       ∧ Forall (λ e, e = Input ∨ ∃ text, e = Print text) after
       ∧ Input ∈ after)
  ∧ length (List.filter (λ e, bool_decide (e = Resume)) (trace o)) = 1
  ∧ length (List.filter (λ e, bool_decide (e = Suspend)) (trace o)) = 1
  ∧ (n ≠ 0%Z →
       status_bar (app_after o) = failure_status n
       ∧ log (app_after o) = ["Setup failed with exit code " +:+ pretty n]
       ∧ ∀ m, failure_status m = status_bar (app_after o) → m = n)
  ∧ (n = 0%Z →
       status_bar (app_after o) = "[bold green]Environment created successfully![/]"
       ∧ log (app_after o) = ["Setup completed for " +:+ project_name]).
Proof.
  intros Hscript Hbash Hinput. cbv zeta.
  unfold run_setup, suspended_body. rewrite Hscript, Hbash, Hinput. cbn [negb].
  set (env := setup_env a w db_name install_precommit clone_repo).
  assert (Henv : env !! "BASE_PATH" = Some (PurePath.str (target_dir a))).
  { subst env. unfold setup_env.
    destruct (PyStr.truthy clone_repo), install_precommit, (PyStr.truthy db_name);
      by simplify_map_eq. }
  pose proof (banner_prints a project_name odoo_version clone_repo) as Hbanner.
  destruct (report_prints_then_waits n) as [Hreport Hwait].
  assert (Hcount : ∀ e, (∀ text, e ≠ Print text) → e ≠ Input →
            (∀ env', e ≠ SubprocessRun
               ["bash"; PurePath.str (PurePath.truediv (script_dir a) "create.sh");
                project_name; odoo_version] env' (PurePath.str (script_dir a)) n) →
            List.filter (λ e', bool_decide (e' = e))
              (banner a project_name odoo_version clone_repo
               ++ [SubprocessRun
                     ["bash"; PurePath.str (PurePath.truediv (script_dir a) "create.sh");
                      project_name; odoo_version] env (PurePath.str (script_dir a)) n]
               ++ report n) = []).
  { intros e Hp Hi Hr. rewrite !List.filter_app.
    rewrite (count_prints e (banner _ _ _ _)), (count_prints e (report n)); try done.
    - simpl. by rewrite bool_decide_eq_false_2.
    - eapply Forall_impl; [exact Hbanner | intros ? [text ->]; eauto]. }
  split_and!.
  - done.
  - done.
  - exists (banner a project_name odoo_version clone_repo), (report n), env.
    split_and!; try done. cbn [trace]. by rewrite <-!app_assoc.
  - cbn [trace]. rewrite 2!List.filter_app, Hcount; done.
  - cbn [trace]. rewrite 2!List.filter_app, Hcount; done.
  - intros Hn. cbn [app_after]. rewrite bool_decide_eq_false_2 by done.
    unfold update_status. cbn [status_bar log set_status_bar set_log app].
    rewrite failure_status_markup.
    split_and!; [done | done |]. intros m Hm. by apply failure_status_inj.
  - intros ->. done.
Qed.

(** The handoff at exit status 3. *)
Lemma handoff_returns_exit_status_witness :
  let o := run_setup app0 world3 "my-proj_18" "18.0" "" false "" in
  captured o = Some 3%Z
  ∧ status_bar (app_after o) = "[bold red]Setup failed (exit code 3)[/]"
  ∧ length (List.filter (λ e, bool_decide (e = Resume)) (trace o)) = 1.
Proof.
  pose proof (handoff_returns_exit_status app0 world3 3 "my-proj_18" "18.0" "" false ""
                eq_refl eq_refl eq_refl) as (Hc & _ & _ & Hr & _ & Hs & _).
  split_and!; [exact Hc | exact (proj1 (Hs ltac:(done))) | exact Hr].
Defined.

End Handoff.

(** ** Candidate Cache *)

Section CandidateCache.
Import SimpleDevEnvApp.

Lemma ltb_le (a b : string) : String.ltb a b = true → String.le a b.
Proof.
  unfold String.le, String.leb, String.ltb. by destruct (String.compare a b).
Qed.

Lemma ltb_false_ge (a b : string) : String.ltb a b = false → String.le b a.
Proof.
  unfold String.le, String.leb, String.ltb. rewrite (String.compare_antisym a b).
  by destruct (String.compare b a).
Qed.

Lemma name_le_trans (x y z : repo) : name_le x y → name_le y z → name_le x z.
Proof. unfold name_le. intros ??. by etrans. Qed.

Lemma insert_by_perm (x : repo) (l : list repo) : PyList.insert_by sort_key x l ≡ₚ x :: l.
Proof.
  induction l as [|y l IH]; simpl; [done |].
  destruct (String.ltb _ _); [| done].
  rewrite IH. apply Permutation_swap.
Qed.

Lemma sorted_perm (l : list repo) : PyList.sorted sort_key l ≡ₚ l.
Proof.
  induction l as [|x l IH]; simpl; [done |].
  by rewrite insert_by_perm, IH.
Qed.

Lemma insert_by_sorted (x : repo) (l : list repo) :
  StronglySorted name_le l → StronglySorted name_le (PyList.insert_by sort_key x l).
Proof.
  induction 1 as [|y l Hl IH Hy]; simpl.
  - by repeat constructor.
  - destruct (String.ltb _ _) eqn:Hlt.
    + constructor; [done |].
      rewrite insert_by_perm. constructor; [by apply ltb_le | done].
    + apply ltb_false_ge in Hlt.
      constructor; [by constructor |].
      constructor; [done |].
      eapply Forall_impl; [exact Hy |]. intros z Hz. by eapply name_le_trans.
Qed.

Lemma sorted_sorted (l : list repo) : StronglySorted name_le (PyList.sorted sort_key l).
Proof.
  induction l as [|x l IH]; simpl; [constructor | by apply insert_by_sorted].
Qed.

(** The sorted result does not depend on the order of the input when no
    two different elements have the same key. *)
Lemma sorted_order_independent (l k : list repo) :
  l ≡ₚ k →
  (∀ x y, x ∈ l → y ∈ l → sort_key x = sort_key y → x = y) →
  PyList.sorted sort_key l = PyList.sorted sort_key k.
Proof.
  intros Hlk Hinj.
  apply (StronglySorted_unique_strong name_le); try apply sorted_sorted.
  - intros x y Hx Hy Hxy Hyx.
    rewrite sorted_perm in Hx. rewrite sorted_perm, <-Hlk in Hy.
    apply Hinj; [done | done |]. by apply (anti_symm String.le).
  - by rewrite !sorted_perm.
Qed.

Lemma set_iteration_perm {A} (xs it1 it2 : list A) :
  PyList.set_iteration xs it1 → PyList.set_iteration xs it2 → it1 ≡ₚ it2.
Proof.
  intros [Hn1 H1] [Hn2 H2]. apply NoDup_Permutation; [done | done |].
  intros x. by rewrite H1, H2.
Qed.

Lemma set_iteration_remove_dups (xs : list repo) : PyList.set_iteration xs (remove_dups xs).
Proof.
  split; [apply NoDup_remove_dups | intros x; apply elem_of_remove_dups].
Qed.

(** C1, as the claim states it, fails: on the example input the cache
    has three entries, two of them with the identifier [u1], whatever the
    iteration order of the set. *)
Lemma cache_keeps_pairs_with_same_identifier :
  build_cache remove_dups cache_input = [("x", "u1"); ("y", "u1"); ("z", "u2")]
  ∧ length (build_cache remove_dups cache_input) = 3
  ∧ (build_cache remove_dups cache_input).*2 = ["u1"; "u1"; "u2"]
  ∧ ¬ NoDup (build_cache remove_dups cache_input).*2
  ∧ ¬ ∃ it, PyList.set_iteration cache_input it ∧ length (PyList.sorted sort_key it) = 2.
Proof.
  split_and!; try reflexivity.
  - change (¬ NoDup ["u1"; "u1"; "u2"]). rewrite NoDup_cons.
    intros [Hnotin _]. apply Hnotin. by left.
  - intros (it & Hit & Hlen).
    rewrite sorted_perm in Hlen.
    rewrite (set_iteration_perm _ _ _ Hit (set_iteration_remove_dups cache_input)) in Hlen.
    discriminate.
Qed.

(** C1, amended.  The cache holds each (display name, identifier) pair
    of the merged listing once: it has no repeated pair, it has exactly the
    pairs of the listing, it is sorted by display name ignoring case, and
    two entries that share an identifier differ in display name.  On the
    example input it is the three pairs themselves, for every iteration
    order of the set.  The handler stores this list as the cache when the
    merged listing is not empty. *)
Theorem cache_deduplicates_pairs (set_iter : list repo → list repo) (all_repos : list repo) :
  PyList.set_iteration all_repos (set_iter all_repos) →
  let cache := build_cache set_iter all_repos in
  NoDup cache
  ∧ (∀ r, r ∈ cache ↔ r ∈ all_repos)
  ∧ StronglySorted name_le cache
  ∧ (∀ i j n1 n2 u,
       i ≠ j → cache !! i = Some (n1, u) → cache !! j = Some (n2, u) → n1 ≠ n2)
  ∧ (∀ it, PyList.set_iteration cache_input it → PyList.sorted sort_key it = cache_input)
  ∧ (∀ a personal org,
       github_repos a = [] →
       load_all_repos personal org = inr all_repos →
       all_repos ≠ [] →
       github_repos (on_select_repo set_iter a personal org).1 = cache).
Proof.
  intros [Hnd Hin]. cbv zeta. unfold build_cache.
  assert (Hcache : NoDup (PyList.sorted sort_key (set_iter all_repos)))
    by (by rewrite sorted_perm).
  split_and!.
  - done.
  - intros r. by rewrite sorted_perm.
  - apply sorted_sorted.
  - intros i j n1 n2 u Hij Hi Hj ->.
    by apply Hij, (NoDup_lookup _ i j (n2, u) Hcache).
  - intros it Hit.
    rewrite (sorted_order_independent it (remove_dups cache_input)).
    + reflexivity.
    + eapply set_iteration_perm; [done | apply set_iteration_remove_dups].
    + intros x y Hx Hy Hkey. destruct Hit as [_ Hit]. rewrite Hit in Hx, Hy.
      unfold cache_input in Hx, Hy. rewrite !elem_of_cons, elem_of_nil in Hx, Hy.
      destruct Hx as [Hx | [Hx | [Hx | []]]], Hy as [Hy | [Hy | [Hy | []]]]; subst x y;
        first [reflexivity | vm_compute in Hkey; discriminate].
  - intros a personal org Ha Hload Hne. unfold on_select_repo.
    rewrite Ha, Hload. rewrite bool_decide_eq_true_2 by done.
    by rewrite bool_decide_eq_false_2 by done.
Qed.

(** The cache built when the set iterates in first-occurrence order. *)
Lemma cache_deduplicates_pairs_witness :
  NoDup (build_cache remove_dups cache_input)
  ∧ ∀ r, r ∈ build_cache remove_dups cache_input ↔ r ∈ cache_input.
Proof.
  pose proof (cache_deduplicates_pairs remove_dups cache_input
                (set_iteration_remove_dups cache_input)) as (H1 & H2 & _).
  exact (conj H1 H2).
Defined.

End CandidateCache.

(** ** The file system and [Path.mkdir] *)

Section FileSystem.
Import Fs.
Implicit Types (fs : gmap Path node) (p d : Path).

Lemma stat_snoc fs d (c : string) : stat fs (d ++ [c]) = fs !! (d ++ [c]).
Proof. by destruct d. Qed.

Lemma stat_dir_mono fs fs' d w :
  fs ⊆ fs' → stat fs d = Some (Dir w) → ∃ w', stat fs' d = Some (Dir w').
Proof.
  intros Hsub. destruct d as [|c d]; simpl; [eauto |].
  intros H. exists w. by eapply lookup_weaken.
Qed.

Lemma walk_mono fs fs' cur comps r :
  fs ⊆ fs' → walk fs cur comps = inr r → walk fs' cur comps = inr r.
Proof.
  intros Hsub. revert cur. induction comps as [|c rest IH]; intros cur; simpl; [done |].
  destruct (stat fs cur) as [[w|]|] eqn:Hst; try done.
  destruct (stat_dir_mono _ _ _ _ Hsub Hst) as [w' ->].
  case_bool_decide; [done |]. apply IH.
Qed.

Lemma is_dir_true fs p :
  is_dir fs p = true ↔ ∃ d w, walk fs [] p = inr d ∧ stat fs d = Some (Dir w).
Proof.
  unfold is_dir. destruct (walk fs [] p) as [e|d].
  - split; [done | by intros (d & w & ? & _)].
  - destruct (stat fs d) as [[w|]|] eqn:Hs.
    + split; [intros _; by exists d, w | done].
    + split; [done | intros (d' & w & [= <-] & Hs'); congruence].
    + split; [done | intros (d' & w & [= <-] & Hs'); congruence].
Qed.


Lemma walk_app fs cur (a b : list string) :
  walk fs cur (a ++ b)
  = match walk fs cur a with inl e => inl e | inr d => walk fs d b end.
Proof.
  revert cur. induction a as [|c a IH]; intros cur; simpl; [done |].
  destruct (stat fs cur) as [[w|]|]; try done.
  case_bool_decide; [done |]. apply IH.
Qed.

Lemma walk_from_dir fs cur comps r :
  walk fs cur comps = inr r → comps ≠ [] → ∃ w, stat fs cur = Some (Dir w).
Proof.
  destruct comps as [|c rest]; [done |]. simpl.
  destruct (stat fs cur) as [[w|]|]; [eauto | done | done].
Qed.

(** Every path on the way to a directory is a directory. *)
Lemma is_dir_prefix fs (a b : list string) : is_dir fs (a ++ b) = true → is_dir fs a = true.
Proof.
  rewrite !is_dir_true. intros (d & w & Hw & Hs). rewrite walk_app in Hw.
  destruct (walk fs [] a) as [e|d0] eqn:Ha; [done |].
  destruct b as [|c b].
  - simpl in Hw. injection Hw as ->. eauto.
  - destruct (walk_from_dir _ _ _ _ Hw) as [w0 H0]; [done | eauto].
Qed.

Lemma is_dir_root fs : is_dir fs [] = true.
Proof. done. Qed.

(** A successful [os.mkdir] adds one directory and removes nothing. *)
Lemma os_mkdir_at_ok fs fs' dp (c : string) :
  os_mkdir_at fs dp c = inr fs' → fs ⊆ fs' ∧ is_dir fs' (dp ++ [c]) = true.
Proof.
  unfold os_mkdir_at. destruct (walk fs [] dp) as [e|d] eqn:Hw; [done |].
  destruct (stat fs d) as [[w|]|] eqn:Hs; try done.
  case_bool_decide as Hlen; [done |].
  destruct (String.eqb c "..") eqn:Hdd; [done |].
  rewrite stat_snoc. destruct (fs !! (d ++ [c])) eqn:Hnew; [done |].
  destruct w; [| done]. intros [= <-].
  assert (Hsub : fs ⊆ <[d ++ [c] := Dir true]> fs) by (by apply insert_subseteq).
  split; [done |]. apply is_dir_true. exists (d ++ [c]), true. split.
  - rewrite walk_app, (walk_mono _ _ _ _ _ Hsub Hw). simpl.
    destruct (stat_dir_mono _ _ _ _ Hsub Hs) as [w' ->].
    rewrite bool_decide_eq_false_2 by done. by rewrite Hdd.
  - by rewrite stat_snoc, lookup_insert_eq.
Qed.

Lemma os_mkdir_ok fs fs' (rp : list string) :
  os_mkdir fs rp = inr fs' → fs ⊆ fs' ∧ is_dir fs' (rev rp) = true.
Proof.
  destruct rp as [|c rparent]; simpl; [done |]. apply os_mkdir_at_ok.
Qed.

(** [os.mkdir] of a directory that is there fails with [EEXIST]. *)
Lemma os_mkdir_existing fs (rp : list string) :
  is_dir fs (rev rp) = true → os_mkdir fs rp = inl EEXIST.
Proof.
  destruct rp as [|c rparent]; simpl; [done |].
  rewrite is_dir_true. intros (d & w & Hw & Hs). rewrite walk_app in Hw.
  unfold os_mkdir_at. destruct (walk fs [] (rev rparent)) as [e|d0]; [done |].
  simpl in Hw. destruct (stat fs d0) as [[w0|]|]; try done.
  case_bool_decide; [done |].
  destruct (String.eqb c ".."); [done |].
  injection Hw as <-. by rewrite Hs.
Qed.

Lemma mkdir_noparents_ok fs fs' (rp : list string) (exist_ok : bool) :
  mkdir_noparents fs rp exist_ok = (fs', None) → fs ⊆ fs' ∧ is_dir fs' (rev rp) = true.
Proof.
  unfold mkdir_noparents. destruct (os_mkdir fs rp) as [e|fs1] eqn:Hos.
  - destruct e, exist_ok; simpl; try done;
      destruct (is_dir fs (rev rp)) eqn:Hd; try done; by intros [= <-].
  - intros [= <-]. by apply os_mkdir_ok.
Qed.

(** [mkdir] never removes anything, whether it fails or not. *)
Lemma mkdir_noparents_grows fs fs' (rp : list string) (exist_ok : bool) r :
  mkdir_noparents fs rp exist_ok = (fs', r) → fs ⊆ fs'.
Proof.
  unfold mkdir_noparents. destruct (os_mkdir fs rp) as [e|fs1] eqn:Hos.
  - destruct e, exist_ok; simpl; try destruct (is_dir fs (rev rp)); by intros [= <- _].
  - intros [= <- _]. by apply os_mkdir_ok in Hos as [? _].
Qed.

Lemma mkdir_parents_grows fs fs' (rp : list string) (exist_ok : bool) r :
  mkdir_parents fs rp exist_ok = (fs', r) → fs ⊆ fs'.
Proof.
  revert fs fs' exist_ok r. induction rp as [|c rparent IH]; intros fs fs' exist_ok r.
  - simpl. destruct exist_ok; simpl; by intros [= <- _].
  - cbn [mkdir_parents]. destruct (os_mkdir fs (c :: rparent)) as [e|fs1] eqn:Hos.
    + destruct e; try (destruct (exist_ok && is_dir fs (rev (c :: rparent))); by intros [= <- _]).
      destruct (mkdir_parents fs rparent true) as [fs1 [e1|]] eqn:Hpar.
      * intros [= <- _]. by eapply IH.
      * intros Hleaf. etrans; [by eapply IH | by eapply mkdir_noparents_grows].
    + intros [= <- _]. by apply os_mkdir_ok in Hos as [? _].
Qed.

(** A [mkdir(parents=True)] that does not raise leaves the path a
    directory and removes nothing. *)
Lemma mkdir_parents_ok fs fs' (rp : list string) (exist_ok : bool) :
  mkdir_parents fs rp exist_ok = (fs', None) → fs ⊆ fs' ∧ is_dir fs' (rev rp) = true.
Proof.
  intros H. split; [by eapply mkdir_parents_grows |].
  destruct rp as [|c rparent]; [done |].
  cbn [mkdir_parents] in H. destruct (os_mkdir fs (c :: rparent)) as [e|fs1] eqn:Hos.
  - destruct e;
      try (destruct exist_ok, (is_dir fs (rev (c :: rparent))) eqn:Hd;
           simpl in H; by first [discriminate H | injection H as <-]).
    destruct (mkdir_parents fs rparent true) as [fs1 [e1|]]; [done |].
    by apply mkdir_noparents_ok in H as [_ ?].
  - injection H as <-. by apply os_mkdir_ok in Hos as [_ ?].
Qed.

(** [mkdir(parents=True, exist_ok=True)] of a directory that is there
    does nothing and does not raise. *)
Lemma mkdir_existing fs p : is_dir fs p = true → mkdir fs p true true = (fs, None).
Proof.
  intros Hd. unfold mkdir. rewrite <-(rev_involutive p) in Hd.
  destruct (rev p) as [|c rparent] eqn:Hrev.
  - done.
  - cbn [mkdir_parents]. rewrite (os_mkdir_existing _ _ Hd). by rewrite Hd.
Qed.

(** A name that is free in an existing writable directory is created
    there. *)
Lemma mkdir_fresh_child fs p d (c : string) :
  walk fs [] p = inr d →
  stat fs d = Some (Dir true) →
  (String.length c ≤ NAME_MAX)%nat →
  c ≠ ".." →
  fs !! (d ++ [c]) = None →
  mkdir fs (p ++ [c]) true true = (<[d ++ [c] := Dir true]> fs, None).
Proof.
  intros Hw Hs Hlen Hdd Hfree. unfold mkdir. rewrite rev_app_distr.
  cbn [rev app mkdir_parents os_mkdir]. rewrite rev_involutive.
  unfold os_mkdir_at. rewrite Hw, Hs, stat_snoc, Hfree.
  rewrite bool_decide_eq_false_2 by lia.
  by destruct (String.eqb_spec c "..").
Qed.

Lemma mkdir_ok fs fs' p :
  mkdir fs p true true = (fs', None) → fs ⊆ fs' ∧ is_dir fs' p = true.
Proof.
  unfold mkdir. intros H. apply mkdir_parents_ok in H. by rewrite rev_involutive in H.
Qed.

Lemma mkdir_grows fs fs' p r : mkdir fs p true true = (fs', r) → fs ⊆ fs'.
Proof. apply mkdir_parents_grows. Qed.

End FileSystem.

(** ** Folder creation in the Directory Picker *)

Section CreateFolder.
Import DirectoryPickerScreen.

Ltac screen_fields :=
  cbn [fst snd start_path selected_path selected_path_static new_folder_input
       tree_reloads dismissed input_changed on_directory_selected from_option id].

Lemma on_create_folder_created (s : t) (fs fs1 : gmap Path Fs.node) :
  let folder_name := PyStr.strip (new_folder_input s) in
  let new_path := PurePath.truediv (default (start_path s) (selected_path s)) folder_name in
  PyStr.truthy folder_name = true →
  Fs.mkdir fs new_path true true = (fs1, None) →
  on_create_folder s fs
  = ({| start_path := start_path s; selected_path := Some new_path;
        selected_path_static := "Created & Selected: " +:+ PurePath.str new_path;
        new_folder_input := ""; tree_reloads := S (tree_reloads s);
        dismissed := dismissed s |}, fs1).
Proof. cbv zeta. intros Hname Hmk. unfold on_create_folder. by rewrite Hname, Hmk. Qed.

Lemma on_create_folder_failed (s : t) (fs fs1 : gmap Path Fs.node) (e : Fs.OSError) :
  let folder_name := PyStr.strip (new_folder_input s) in
  let new_path := PurePath.truediv (default (start_path s) (selected_path s)) folder_name in
  PyStr.truthy folder_name = true →
  Fs.mkdir fs new_path true true = (fs1, Some e) →
  on_create_folder s fs
  = ({| start_path := start_path s; selected_path := selected_path s;
        selected_path_static := "Error: " +:+ Fs.OSError_str e;
        new_folder_input := new_folder_input s; tree_reloads := tree_reloads s;
        dismissed := dismissed s |}, fs1).
Proof. cbv zeta. intros Hname Hmk. unfold on_create_folder. by rewrite Hname, Hmk. Qed.

(** C5, as the claim states it, fails: after "sub" was created under
    [/root/a] and selected, confirming "sub" again creates
    [/root/a/sub/sub] and moves the selection there. *)
Lemma second_creation_nests_folder :
  let first := run [CreateFolderPressed] picker_at_a fs_home in
  let second := run [InputChanged "sub"; CreateFolderPressed] first.1 first.2 in
  selected_path first.1 = Some ["root"; "a"; "sub"]
  ∧ selected_path second.1 = Some ["root"; "a"; "sub"; "sub"]
  ∧ selected_path_static second.1 = "Created & Selected: /root/a/sub/sub"
  ∧ second.2 !! ["root"; "a"; "sub"; "sub"] = Some (Fs.Dir true)
  ∧ selected_path second.1 ≠ selected_path first.1.
Proof. vm_compute. split_and!; try reflexivity. discriminate. Qed.

(** C5, amended.  When the creation of [name] under the current
    selection (or the start path) does not raise, the new path
    [parent / name] is the selection, it and every path leading to it are
    directories afterwards, and nothing that existed is gone.  Creating an
    existing folder is not an error: with the parent selected again, the
    same name gives the same selection and leaves the file system as it
    is.  With the selection left on the new folder, the same name is
    created below it: the selection becomes [parent / name / name] when
    that does not raise, and stays [parent / name] when it does. *)
Theorem create_folder_selects_created (s : t) (fs : gmap Path Fs.node) (name : string) :
  let parent := default (start_path s) (selected_path s) in
  let new_path := PurePath.truediv parent name in
  PyStr.strip (new_folder_input s) = name →
  PyStr.truthy name = true →
  (Fs.mkdir fs new_path true true).2 = None →
  let s1 := (on_create_folder s fs).1 in
  let fs1 := (on_create_folder s fs).2 in
  selected_path s1 = Some new_path
  ∧ selected_path_static s1 = "Created & Selected: " +:+ PurePath.str new_path
  ∧ new_folder_input s1 = ""
  ∧ dismissed s1 = dismissed s
  ∧ Fs.is_dir fs1 new_path = true
  ∧ (∀ k, Fs.is_dir fs1 (take k new_path) = true)
  ∧ fs ⊆ fs1
  ∧ (let again :=
       on_create_folder
         (on_directory_selected (input_changed s1 (new_folder_input s)) parent) fs1 in
     selected_path again.1 = Some new_path
     ∧ selected_path_static again.1 = "Created & Selected: " +:+ PurePath.str new_path
     ∧ again.2 = fs1)
  ∧ (let second := on_create_folder (input_changed s1 (new_folder_input s)) fs1 in
     let nested := PurePath.truediv new_path name in
     ((Fs.mkdir fs1 nested true true).2 = None →
        selected_path second.1 = Some nested ∧ Fs.is_dir second.2 nested = true)
     ∧ (∀ e, (Fs.mkdir fs1 nested true true).2 = Some e →
          selected_path second.1 = Some new_path
          ∧ selected_path_static second.1 = "Error: " +:+ Fs.OSError_str e)).
Proof.
  cbv zeta. intros Hstrip Hname Hmk.
  destruct (Fs.mkdir fs (PurePath.truediv (default (start_path s) (selected_path s)) name)
              true true) as [fs1 r] eqn:Hmkdir.
  simpl in Hmk. subst r.
  rewrite (on_create_folder_created s fs fs1) by (by rewrite Hstrip).
  rewrite Hstrip. screen_fields.
  destruct (mkdir_ok _ _ _ Hmkdir) as [Hsub Hdir].
  split_and!; try done.
  - intros k. eapply is_dir_prefix. by erewrite take_drop.
  - rewrite (on_create_folder_created _ fs1 fs1); screen_fields; rewrite ?Hstrip; try done.
    by apply mkdir_existing.
  - rewrite (on_create_folder_created _ fs1 fs1); screen_fields; rewrite ?Hstrip; try done.
    by apply mkdir_existing.
  - rewrite (on_create_folder_created _ fs1 fs1); screen_fields; rewrite ?Hstrip; try done.
    by apply mkdir_existing.
  - intros Hnested.
    destruct (Fs.mkdir fs1
                (PurePath.truediv
                   (PurePath.truediv (default (start_path s) (selected_path s)) name) name)
                true true) as [fs2 r] eqn:Hmk2.
    simpl in Hnested. subst r.
    rewrite (on_create_folder_created _ fs1 fs2); screen_fields; rewrite ?Hstrip; try done.
    split; [done |]. by apply mkdir_ok in Hmk2 as [_ ?].
  - intros e He.
    destruct (Fs.mkdir fs1
                (PurePath.truediv
                   (PurePath.truediv (default (start_path s) (selected_path s)) name) name)
                true true) as [fs2 r] eqn:Hmk2.
    simpl in He. subst r.
    rewrite (on_create_folder_failed _ fs1 fs2 e); screen_fields; rewrite ?Hstrip; done.
Qed.

(** "sub" created under the selected [/root/a], with [/root/a] missing
    at first. *)
Lemma create_folder_selects_created_witness :
  selected_path (on_create_folder picker_at_a fs_home).1 = Some ["root"; "a"; "sub"]
  ∧ Fs.is_dir (on_create_folder picker_at_a fs_home).2 ["root"; "a"] = true
  ∧ Fs.is_dir fs_home ["root"; "a"] = false.
Proof.
  pose proof (create_folder_selects_created picker_at_a fs_home "sub" eq_refl eq_refl
                ltac:(vm_compute; reflexivity)) as (H1 & _ & _ & _ & _ & H2 & _).
  split_and!; [exact H1 | exact (H2 2) | vm_compute; reflexivity].
Defined.

(** C6. When [mkdir] raises an [OSError], the handler shows the error in
    the readout and changes nothing else of the screen: the selection, the
    start path, the typed name and the open state are as before, so Select
    returns what it would have returned, and the events that follow are
    handled as usual.  The file system has lost nothing. *)
Theorem create_folder_failure_keeps_selection
    (s : t) (fs fs1 : gmap Path Fs.node) (e : Fs.OSError) :
  let folder_name := PyStr.strip (new_folder_input s) in
  let new_path := PurePath.truediv (default (start_path s) (selected_path s)) folder_name in
  PyStr.truthy folder_name = true →
  Fs.mkdir fs new_path true true = (fs1, Some e) →
  let s1 := (on_create_folder s fs).1 in
  selected_path s1 = selected_path s
  ∧ start_path s1 = start_path s
  ∧ dismissed s1 = dismissed s
  ∧ selected_path_static s1 = "Error: " +:+ Fs.OSError_str e
  ∧ new_folder_input s1 = new_folder_input s
  ∧ tree_reloads s1 = tree_reloads s
  ∧ dismissed (on_select s1) = dismissed (on_select s)
  ∧ (on_create_folder s fs).2 = fs1
  ∧ fs ⊆ fs1
  ∧ (∀ evs, dismissed s = None → run (CreateFolderPressed :: evs) s fs = run evs s1 fs1).
Proof.
  cbv zeta. intros Hname Hmk.
  rewrite (on_create_folder_failed s fs fs1 e Hname Hmk). cbn [fst snd].
  split_and!; try done.
  - by eapply mkdir_grows.
  - intros evs Hopen. cbn [run handle].
    rewrite (on_create_folder_failed s fs fs1 e Hname Hmk). by rewrite Hopen.
Qed.

(** A folder refused by the read-only [/etc]. *)
Lemma create_folder_failure_keeps_selection_witness :
  selected_path (on_create_folder picker_at_etc fs_home).1 = Some ["etc"]
  ∧ dismissed (on_create_folder picker_at_etc fs_home).1 = None
  ∧ selected_path_static (on_create_folder picker_at_etc fs_home).1
    = "Error: [Errno 13] Permission denied: '/etc/x'".
Proof.
  pose proof (create_folder_failure_keeps_selection picker_at_etc fs_home fs_home
                (Fs.mkOSError Fs.EACCES ["etc"; "x"]) eq_refl
                ltac:(vm_compute; reflexivity)) as (H1 & _ & H3 & H4 & _).
  split_and!; [exact H1 | exact H3 | exact H4].
Defined.

End CreateFolder.

(** ** The environment and the frame of the handoff *)

Section HandoffFrame.
Import SimpleDevEnvApp.

(** X1. The environment handed to the script, key by key: [CLONE_REPO],
    [INSTALL_PRECOMMIT] and [DB_NAME] carry the form's value when the form
    gives one and are inherited from the process environment otherwise;
    [BASE_PATH] is always the target directory, whatever the process
    environment says; every other variable is inherited unchanged. *)
Theorem setup_env_lookup (a : t) (w : world) (db_name : string) (install_precommit : bool)
    (clone_repo : string) (k : string) :
  setup_env a w db_name install_precommit clone_repo !! k
  = if bool_decide (k = "CLONE_REPO") && PyStr.truthy clone_repo then Some clone_repo
    else if bool_decide (k = "INSTALL_PRECOMMIT") && install_precommit then Some "1"
    else if bool_decide (k = "DB_NAME") && PyStr.truthy db_name then Some db_name
    else if bool_decide (k = "BASE_PATH") then Some (PurePath.str (target_dir a))
    else environ w !! k.
Proof.
  unfold setup_env.
  destruct (PyStr.truthy clone_repo), install_precommit, (PyStr.truthy db_name);
    rewrite ?andb_true_r, ?andb_false_r;
    repeat (case_bool_decide; simplify_map_eq; try done).
Qed.

Lemma suspended_body_runs (a : t) (w : world) (script_path : Path) (env : gmap string string)
    (project_name odoo_version clone_repo : string) (e : io) :
  e ∈ (suspended_body a w script_path env project_name odoo_version clone_repo).1 →
  (∃ text, e = Print text) ∨ e = Input
  ∨ ∃ rc, bash_run w = Some rc
          ∧ e = SubprocessRun ["bash"; PurePath.str script_path; project_name; odoo_version]
                  env (PurePath.str (script_dir a)) rc.
Proof.
  unfold suspended_body.
  pose proof (banner_prints a project_name odoo_version clone_repo) as Hb.
  rewrite Forall_forall in Hb.
  destruct (bash_run w) as [rc|] eqn:Hrun.
  - assert (Hin : e ∈ banner a project_name odoo_version clone_repo
                    ++ [SubprocessRun ["bash"; PurePath.str script_path; project_name; odoo_version]
                          env (PurePath.str (script_dir a)) rc]
                    ++ report rc →
             (∃ text, e = Print text) ∨ e = Input
             ∨ ∃ rc0, Some rc = Some rc0
                 ∧ e = SubprocessRun ["bash"; PurePath.str script_path; project_name; odoo_version]
                         env (PurePath.str (script_dir a)) rc0).
    { rewrite !elem_of_app, list_elem_of_singleton. intros [He | [-> | He]].
      - left. by apply Hb.
      - right. right. by exists rc.
      - destruct (report_prints_then_waits rc) as [Hr _]. rewrite Forall_forall in Hr.
        destruct (Hr e He) as [-> | ?]; auto. }
    by destruct (input_returns w).
  - simpl. intros He. left. by apply Hb.
Qed.

(** X2. In every world, [run_setup] leaves the parameters of the form
    as they are; it starts a process only when [create.sh] exists, then
    exactly the command [bash create.sh name version] in the script
    directory with the environment of [setup_env]; without [create.sh] it
    does nothing to the terminal and reports the missing script; and when
    it raises, the status line and the log are untouched and no exit
    status is captured. *)
Theorem run_setup_frame (a : t) (w : world) (project_name odoo_version db_name : string)
    (install_precommit : bool) (clone_repo : string) :
  let o := run_setup a w project_name odoo_version db_name install_precommit clone_repo in
  (script_dir (app_after o) = script_dir a
   ∧ target_dir (app_after o) = target_dir a
   ∧ github_repos (app_after o) = github_repos a
   ∧ selected_repo (app_after o) = selected_repo a
   ∧ target_dir_display (app_after o) = target_dir_display a
   ∧ repo_display (app_after o) = repo_display a)
  ∧ (script_exists w = false →
       trace o = [] ∧ raised o = None ∧ captured o = None
       ∧ app_after o = set_status_bar a "[bold red]Setup script not found![/]")
  ∧ (∀ argv env cwd rc,
       SubprocessRun argv env cwd rc ∈ trace o →
       script_exists w = true ∧ bash_run w = Some rc
       ∧ argv = ["bash"; PurePath.str (PurePath.truediv (script_dir a) "create.sh");
                 project_name; odoo_version]
       ∧ env = setup_env a w db_name install_precommit clone_repo
       ∧ cwd = PurePath.str (script_dir a))
  ∧ (raised o ≠ None → app_after o = a ∧ captured o = None)
  ∧ (captured o ≠ None → raised o = None ∧ Suspend ∈ trace o ∧ Resume ∈ trace o).
Proof.
  cbv zeta. unfold run_setup.
  destruct (script_exists w) eqn:Hscript; cbn [negb].
  - set (body := suspended_body a w _ _ project_name odoo_version clone_repo).
    pose proof (suspended_body_runs a w (PurePath.truediv (script_dir a) "create.sh")
                  (setup_env a w db_name install_precommit clone_repo)
                  project_name odoo_version clone_repo) as Hbody.
    fold body in Hbody. destruct body as [tr [e|rc]].
    + split_and!; try done.
      * intros argv env cwd rc. cbn [trace].
        rewrite !elem_of_app, list_elem_of_singleton. intros [? | [Hin | Hin]]; [done | |].
        -- destruct (Hbody _ Hin) as [[? ?] | [? | (rc0 & Hrc & Heq)]]; try done.
           injection Heq as -> -> -> ->. done.
        -- destruct (suspend_restores_on_error w); [| by apply elem_of_nil in Hin].
           by apply list_elem_of_singleton in Hin.
    + split_and!; try (by destruct (bool_decide (rc = 0%Z))).
      * intros argv env cwd rc0. cbn [trace].
        rewrite !elem_of_app, !list_elem_of_singleton. intros [? | [Hin | ?]]; [done | | done].
        destruct (Hbody _ Hin) as [[? ?] | [? | (rc1 & Hrc & Heq)]]; try done.
        injection Heq as -> -> -> ->. done.
      * intros _. cbn [trace]. rewrite !elem_of_app, !list_elem_of_singleton. auto.
  - split_and!; try done.
    intros argv env cwd rc Hin. by apply elem_of_nil in Hin.
Qed.

End HandoffFrame.

(** ** Validation of the project name *)

Section Validation.
Import SimpleDevEnvApp.

Lemma chars_append (s t : string) : chars (s +:+ t) = chars s ++ chars t.
Proof. induction s as [|c s IH]; [done |]. rewrite append_String. simpl. by rewrite IH. Qed.

Lemma truthy_chars (s : string) : PyStr.truthy s = true ↔ chars s ≠ [].
Proof. rewrite truthy_spec. by destruct s. Qed.

Lemma all_chars_Forall (f : ascii → bool) (s : string) :
  PyStr.all_chars f s = true ↔ Forall (λ c, f c = true) (chars s).
Proof.
  induction s as [|c s IH]; simpl.
  - split; [constructor | done].
  - rewrite andb_true_iff, IH, Forall_cons. done.
Qed.

(** Replacing a one-character string by nothing removes that character. *)
Lemma chars_replace_char (s : string) (ch : ascii) :
  chars (PyStr.replace s (String ch "") "") = List.filter (λ c, negb (bool_decide (c = ch))) (chars s).
Proof.
  unfold PyStr.replace. induction s as [|c s IH]; [done |].
  cbn [PyStr.replace_go PyStr.startswith String.length Nat.sub chars List.filter].
  case_decide as Hc.
  - subst c. rewrite bool_decide_eq_true_2 by done. cbn [negb].
    destruct s; rewrite append_empty_l; exact IH.
  - rewrite bool_decide_eq_false_2 by congruence. cbn [negb chars]. by rewrite IH.
Qed.

Lemma joiner_not_alnum (c : ascii) : is_joiner c → PyStr.isalnum_ascii c = false.
Proof. by intros [-> | ->]. Qed.

Lemma isalnum_without_joiners (name : string) :
  PyStr.isalnum (PyStr.replace (PyStr.replace name "-" "") "_" "") = true
  ↔ Forall (λ c, PyStr.isalnum_ascii c = true ∨ is_joiner c) (chars name)
    ∧ Exists (λ c, PyStr.isalnum_ascii c = true) (chars name).
Proof.
  unfold PyStr.isalnum.
  rewrite andb_true_iff, truthy_chars, all_chars_Forall, !chars_replace_char.
  set (keep := List.filter _ (List.filter _ (chars name))).
  assert (Hkeep : ∀ c, c ∈ keep ↔ c ∈ chars name ∧ ¬ is_joiner c).
  { intros c. subst keep. rewrite !list_elem_of_In, !filter_In, !negb_true_iff.
    rewrite !bool_decide_eq_false. unfold is_joiner. tauto. }
  rewrite !Forall_forall, Exists_exists. split.
  - intros [Hne Hall]. split.
    + intros c Hc. destruct (decide (is_joiner c)) as [Hj | Hj]; [by right | left].
      apply Hall, Hkeep. done.
    + destruct keep as [|c keep'] eqn:Hk; [done |].
      exists c. assert (Hc : c ∈ c :: keep') by left.
      split; [by apply Hkeep | by apply Hall].
  - intros [Hall (c & Hc & Halnum)]. split.
    + assert (c ∈ keep) as Hin; [| by destruct keep; [apply elem_of_nil in Hin |]].
      apply Hkeep. split; [done |]. intros Hj. apply joiner_not_alnum in Hj. congruence.
    + intros c' Hc'. apply Hkeep in Hc' as [Hc' Hj].
      by destruct (Hall c' Hc') as [? | ?].
Qed.

(** X3. The test [name.replace("-", "").replace("_", "").isalnum()]
    accepts exactly the names made of letters, digits, hyphens and
    underscores that contain at least one letter or digit: a name of
    hyphens and underscores only is refused, like the empty name. *)
Theorem project_name_test_accepts (name : string) :
  PyStr.isalnum (PyStr.replace (PyStr.replace name "-" "") "_" "") = true
  ↔ Forall (λ c, PyStr.isalnum_ascii c = true ∨ is_joiner c) (chars name)
    ∧ Exists (λ c, PyStr.isalnum_ascii c = true) (chars name).
Proof. apply isalnum_without_joiners. Qed.

(** X4. For a project name and a database name typed in ASCII, where
    [strip] and [isalnum] are Python's: [on_create] submits exactly the
    accepted names.  When the typed project name, stripped, is made of
    letters, digits, hyphens and underscores with at least one letter or
    digit, the handler is [run_setup] on the stripped name, the stripped
    database name and the repository chosen in the form; otherwise nothing
    is run or printed, the form is unchanged but for a red status line,
    and the focus returns to the name field exactly when the stripped name
    is empty. *)
Theorem on_create_validates (a : t) (w : world)
    (project_name_value odoo_version db_name_value : string) (precommit_value : bool) :
  ascii_only project_name_value →
  ascii_only db_name_value →
  let name := PyStr.strip project_name_value in
  let valid := Forall (λ c, PyStr.isalnum_ascii c = true ∨ is_joiner c) (chars name)
               ∧ Exists (λ c, PyStr.isalnum_ascii c = true) (chars name) in
  let r := on_create a w project_name_value odoo_version db_name_value precommit_value in
  (valid →
     r = (run_setup a w name odoo_version (PyStr.strip db_name_value) precommit_value
            (selected_repo a), false))
  ∧ (¬ valid →
       trace r.1 = [] ∧ captured r.1 = None ∧ raised r.1 = None
       ∧ (∃ message, app_after r.1 = set_status_bar a ("[bold red]" +:+ message +:+ "[/]"))
       ∧ (r.2 = true ↔ name = "")).
Proof.
  intros _ _. cbv zeta. rewrite <-isalnum_without_joiners. unfold on_create.
  destruct (PyStr.truthy (PyStr.strip project_name_value)) eqn:Hname; cbn [negb].
  - apply truthy_spec in Hname.
    destruct (PyStr.isalnum _) eqn:Hok; cbn [negb].
    + split; [done | by intros []].
    + split; [done |]. intros _. split_and!; try done; try (by eexists).
  - assert (Hempty : PyStr.strip project_name_value = "").
    { destruct (PyStr.strip project_name_value) eqn:Hs; [done | discriminate Hname]. }
    rewrite Hempty. split; [done |]. intros _. split_and!; try done; try (by eexists).
Qed.

Lemma ascii_only_checked (s : string) :
  forallb (λ c, (N_of_ascii c <? 128)%N) (chars s) = true → ascii_only s.
Proof.
  unfold ascii_only. rewrite forallb_forall, Forall_forall.
  intros H c Hc. apply N.ltb_lt, H. by apply list_elem_of_In.
Qed.


(** A padded valid name is submitted stripped; a name with a space and
    an exclamation mark is refused. *)
Lemma on_create_validates_witness :
  on_create app0 world3 " my-proj_18 " "18.0" "" false
  = (run_setup app0 world3 "my-proj_18" "18.0" "" false "", false)
  ∧ trace (on_create app0 world3 "my proj!" "18.0" "" false).1 = [].
Proof.
  split.
  - apply (on_create_validates app0 world3 " my-proj_18 " "18.0" "" false);
      [by apply ascii_only_checked | by apply ascii_only_checked |].
    apply isalnum_without_joiners. reflexivity.
  - apply (on_create_validates app0 world3 "my proj!" "18.0" "" false);
      [by apply ascii_only_checked | by apply ascii_only_checked |].
    rewrite <-isalnum_without_joiners. discriminate.
Defined.

End Validation.

(** ** Loading the candidate cache *)

Section CacheLoading.
Import SimpleDevEnvApp.

Lemma map_pair_id (l : list repo) : List.map (λ '(n, u), (n, u)) l = l.
Proof. induction l as [|[n u] l IH]; simpl; [done | by rewrite IH]. Qed.

Lemma build_cache_elem_of (set_iter : list repo → list repo) (all_repos : list repo) (x : repo) :
  PyList.set_iteration all_repos (set_iter all_repos) →
  x ∈ build_cache set_iter all_repos ↔ x ∈ all_repos.
Proof. intros [_ Hin]. unfold build_cache. by rewrite sorted_perm. Qed.

Lemma build_cache_nonempty (set_iter : list repo → list repo) (all_repos : list repo) :
  PyList.set_iteration all_repos (set_iter all_repos) →
  all_repos ≠ [] → build_cache set_iter all_repos ≠ [].
Proof.
  intros Hit Hne Hnil. destruct all_repos as [|x l]; [done |].
  assert (Hx : x ∈ build_cache set_iter (x :: l)) by (apply build_cache_elem_of; [done | left]).
  rewrite Hnil in Hx. by apply elem_of_nil in Hx.
Qed.



Lemma on_select_repo_opened (set_iter : list repo → list repo) (a : t) (personal org : gh_run) :
  (∀ xs, PyList.set_iteration xs (set_iter xs)) →
  (on_select_repo set_iter a personal org).2 ≠ None →
  github_repos (on_select_repo set_iter a personal org).1 ≠ [].
Proof.
  intros Hit. unfold on_select_repo.
  case_bool_decide as Ha; [| done].
  destruct (load_all_repos personal org) as [[| |e]|all_repos]; try done.
  case_bool_decide as Hall; [done |]. intros _.
  by apply build_cache_nonempty.
Qed.

(** X5. The cache is loaded at most once: whenever a call of
    [on_select_repo] opens the picker, the cache is not empty afterwards,
    and every later call opens the picker on that same cache, changes
    nothing in the application and does not depend on what [gh] would
    answer. *)
Theorem cache_loaded_once (set_iter : list repo → list repo) (a : t)
    (personal org personal' org' : gh_run) :
  (∀ xs, PyList.set_iteration xs (set_iter xs)) →
  (on_select_repo set_iter a personal org).2 ≠ None →
  let a1 := (on_select_repo set_iter a personal org).1 in
  github_repos a1 ≠ []
  ∧ on_select_repo set_iter a1 personal' org'
    = (a1, Some (RepoPickerScreen.init (github_repos a1))).
Proof.
  intros Hit Hopen. cbv zeta.
  pose proof (on_select_repo_opened set_iter a personal org Hit Hopen) as Hne.
  split; [done |].
  generalize dependent (on_select_repo set_iter a personal org).1. intros a1 Hne.
  unfold on_select_repo. by rewrite bool_decide_eq_false_2.
Qed.

(** The cache loaded from the example listing, then asked for again. *)
Lemma cache_loaded_once_witness :
  let a1 := (on_select_repo remove_dups app0 (GhCompleted 0 (inr cache_input))
               (GhCompleted 1 (inr []))).1 in
  github_repos a1 ≠ []
  ∧ on_select_repo remove_dups a1 GhNotFound GhNotFound
    = (a1, Some (RepoPickerScreen.init (github_repos a1))).
Proof.
  apply (cache_loaded_once remove_dups app0 (GhCompleted 0 (inr cache_input))
           (GhCompleted 1 (inr [])) GhNotFound GhNotFound set_iteration_remove_dups).
  vm_compute. discriminate.
Defined.




(** X7. The two listing calls fail independently once each has
    returned: a call that returns a non-zero status contributes nothing,
    whatever could be read from its output, and does not stop the other;
    the candidates are then exactly the pairs that the calls returning 0
    listed.  The load raises only when a call raises ([gh] cannot be
    started, or [subprocess.run] raises otherwise, as on output that
    cannot be decoded) or a call that returned 0 printed something that
    cannot be read as the listing; a first call that raises always ends
    the load, whatever the second would do. *)
Theorem listing_calls_fail_independently (set_iter : list repo → list repo) (a : t)
    (personal org : gh_run) :
  (∀ xs, PyList.set_iteration xs (set_iter xs)) →
  github_repos a = [] →
  (∀ e, load_all_repos personal org = inl e →
        personal = GhNotFound ∨ org = GhNotFound
        ∨ (∃ m, personal = GhRaised m) ∨ (∃ m, org = GhRaised m)
        ∨ (∃ m, personal = GhCompleted 0 (inl m)) ∨ (∃ m, org = GhCompleted 0 (inl m)))
  ∧ (load_all_repos GhNotFound org = inl FileNotFoundError
     ∧ (∀ m, load_all_repos (GhRaised m) org = inl (Exception m))
     ∧ (∀ m, load_all_repos (GhCompleted 0 (inl m)) org = inl (Exception m)))
  ∧ (load_all_repos personal org = inr (listed personal ++ listed org)
     ∨ ∃ e, load_all_repos personal org = inl e)
  ∧ (∀ rc out, rc ≠ 0%Z →
       load_all_repos (GhCompleted rc out) org = load_all_repos (GhCompleted 1 (inr [])) org
       ∧ load_all_repos personal (GhCompleted rc out)
         = load_all_repos personal (GhCompleted 1 (inr [])))
  ∧ (∀ all_repos, load_all_repos personal org = inr all_repos → all_repos ≠ [] →
       let r := on_select_repo set_iter a personal org in
       (∀ x, x ∈ github_repos r.1 ↔ x ∈ listed personal ∨ x ∈ listed org)
       ∧ r.2 = Some (RepoPickerScreen.init (github_repos r.1))).
Proof.
  intros Hit Ha. unfold load_all_repos, extend_from, listed. split_and!.
  - intros e. destruct personal as [|m1|rc1 [m1|l1]], org as [|m2|rc2 [m2|l2]];
      repeat case_bool_decide; subst; try done; eauto 10.
  - done.
  - done.
  - done.
  - destruct personal as [|m1|rc1 [m1|l1]], org as [|m2|rc2 [m2|l2]];
      repeat case_bool_decide; subst; rewrite ?map_pair_id, ?app_nil_r; eauto; done.
  - intros rc out Hrc. rewrite !(bool_decide_eq_false_2 (rc = 0%Z)) by done.
    split; [done |]. by destruct personal as [|m1|rc1 [m1|l1]]; repeat case_bool_decide.
  - intros all_repos Hload Hne. cbv zeta. unfold on_select_repo.
    rewrite Ha, bool_decide_eq_true_2 by done.
    unfold load_all_repos, extend_from. rewrite Hload.
    rewrite bool_decide_eq_false_2 by done. cbn [fst snd github_repos update_status
      set_status_bar set_github_repos].
    split; [| done]. intros x. rewrite build_cache_elem_of by done.
    rewrite <-elem_of_app.
    destruct personal as [|m1|rc1 [m1|l1]], org as [|m2|rc2 [m2|l2]];
      repeat case_bool_decide; subst; try done;
      injection Hload as <-; by rewrite ?map_pair_id, ?app_nil_r.
Qed.

(** The personal listing returns status 4 and an error text; the
    organisation listing succeeds. *)
Lemma listing_calls_fail_independently_witness :
  let r := on_select_repo remove_dups app0 (GhCompleted 4 (inl "not logged in"))
             (GhCompleted 0 (inr cache_input)) in
  (∀ x, x ∈ github_repos r.1 ↔ x ∈ [] ∨ x ∈ cache_input)
  ∧ r.2 = Some (RepoPickerScreen.init (github_repos r.1)).
Proof.
  pose proof (listing_calls_fail_independently remove_dups app0
                (GhCompleted 4 (inl "not logged in")) (GhCompleted 0 (inr cache_input))
                set_iteration_remove_dups eq_refl) as (_ & _ & _ & _ & H).
  exact (H cache_input eq_refl ltac:(done)).
Defined.

End CacheLoading.

(** ** What the repository picker hands to the form *)

Section RepoChoice.
Import SimpleDevEnvApp.

Lemma highlight_then_select (candidates : list repo) (u : string) (queries : list string) :
  u ≠ "" →
  RepoPickerScreen.dismissed
    (RepoPickerScreen.run
       ([RepoPickerScreen.OptionHighlighted (Some u)]
        ++ (RepoPickerScreen.SearchChanged <$> queries) ++ [RepoPickerScreen.SelectPressed])
       (RepoPickerScreen.init candidates)) = Some (Some u).
Proof.
  intros Hu. cbn [app RepoPickerScreen.run RepoPickerScreen.init RepoPickerScreen.dismissed].
  rewrite repo_run_snoc.
  set (s1 := RepoPickerScreen.handle _ _).
  destruct (run_queries_untracked queries s1 eq_refl) as [Hd Hsel].
  rewrite Hd. cbn [RepoPickerScreen.handle RepoPickerScreen.on_select RepoPickerScreen.dismiss
                   RepoPickerScreen.dismissed].
  rewrite Hsel. subst s1. cbn. apply truthy_spec in Hu. by rewrite Hu.
Qed.

(** X8. The tracked identifier outlives the filter: once an entry with
    a non-empty identifier was highlighted, any number of edits of the
    query leave it tracked, and Select returns it, whether or not the entry
    is still in the visible subset. *)
Theorem tracked_identifier_outlives_filter
    (candidates : list repo) (u : string) (queries : list string) :
  u ≠ "" →
  RepoPickerScreen.dismissed
    (RepoPickerScreen.run
       ([RepoPickerScreen.OptionHighlighted (Some u)]
        ++ (RepoPickerScreen.SearchChanged <$> queries) ++ [RepoPickerScreen.SelectPressed])
       (RepoPickerScreen.init candidates)) = Some (Some u)
  ∧ RepoPickerScreen.filtered_repos
      (RepoPickerScreen.run
         ([RepoPickerScreen.OptionHighlighted (Some u)]
          ++ (RepoPickerScreen.SearchChanged <$> queries) ++ [RepoPickerScreen.SelectPressed])
         (RepoPickerScreen.init candidates))
    = visible_subset candidates (List.last queries "").
Proof.
  intros Hu. split; [by apply highlight_then_select |].
  destruct (picker_inv_run candidates
              ([RepoPickerScreen.OptionHighlighted (Some u)]
               ++ (RepoPickerScreen.SearchChanged <$> queries) ++ [RepoPickerScreen.SelectPressed])
              _ (picker_inv_init candidates)) as (_ & -> & _).
  f_equal.
  cbn [app RepoPickerScreen.run RepoPickerScreen.init RepoPickerScreen.dismissed].
  rewrite repo_run_snoc.
  set (s1 := RepoPickerScreen.handle _ _).
  destruct (run_queries_untracked queries s1 eq_refl) as [-> _].
  cbn [RepoPickerScreen.handle RepoPickerScreen.on_select RepoPickerScreen.dismiss
       RepoPickerScreen.search_input].
  assert (Hq : ∀ s, RepoPickerScreen.dismissed s = None →
            RepoPickerScreen.search_input
              (RepoPickerScreen.run (RepoPickerScreen.SearchChanged <$> queries) s)
            = List.last queries (RepoPickerScreen.search_input s)).
  { clear. induction queries as [|q qs IH]; intros s Hs; [done |].
    rewrite fmap_cons. cbn [RepoPickerScreen.run]. rewrite Hs.
    rewrite (IH (RepoPickerScreen.handle (RepoPickerScreen.SearchChanged q) s) Hs).
    by rewrite last_cons_default. }
  by rewrite Hq.
Qed.

(** The only candidate is highlighted and then filtered away. *)
Lemma tracked_identifier_outlives_filter_witness :
  let s := RepoPickerScreen.run
             [RepoPickerScreen.OptionHighlighted (Some "u1");
              RepoPickerScreen.SearchChanged "zzz"; RepoPickerScreen.SelectPressed]
             (RepoPickerScreen.init [("Org/a", "u1")]) in
  RepoPickerScreen.dismissed s = Some (Some "u1") ∧ RepoPickerScreen.filtered_repos s = [].
Proof.
  exact (tracked_identifier_outlives_filter [("Org/a", "u1")] "u1" ["zzz"] ltac:(done)).
Defined.

Lemma reported_ids_cons (ev : RepoPickerScreen.event) (evs : list RepoPickerScreen.event) :
  reported_ids (ev :: evs) = reported_ids [ev] ++ reported_ids evs.
Proof. unfold reported_ids. simpl. by destruct ev as [|[?|]|[?|]| | | |]. Qed.

(** Whatever the picker tracks or returns was reported by the option
    list, the empty string of Clear apart. *)
Lemma run_reports (ids : list string) (evs : list RepoPickerScreen.event)
    (s : RepoPickerScreen.t) :
  (∀ u, RepoPickerScreen.selected_url s = Some u → u ≠ "" ∧ u ∈ ids) →
  (∀ u, RepoPickerScreen.dismissed s = Some (Some u) → u = "" ∨ u ∈ ids) →
  (∀ u, RepoPickerScreen.selected_url (RepoPickerScreen.run evs s) = Some u →
        u ≠ "" ∧ u ∈ ids ++ reported_ids evs)
  ∧ (∀ u, RepoPickerScreen.dismissed (RepoPickerScreen.run evs s) = Some (Some u) →
          u = "" ∨ u ∈ ids ++ reported_ids evs).
Proof.
  revert ids s. induction evs as [|ev evs IH]; intros ids s Hsel Hdis.
  - rewrite app_nil_r. done.
  - destruct (RepoPickerScreen.dismissed s) as [r|] eqn:Hd;
      cbn [RepoPickerScreen.run]; rewrite Hd.
    + split; intros u Hu.
      * destruct (Hsel u Hu). split; [done |]. apply elem_of_app. by left.
      * rewrite Hd in Hu. destruct (Hdis u Hu); [by left | right]. apply elem_of_app. by left.
    + rewrite reported_ids_cons, app_assoc. apply IH.
      * intros u. destruct ev as [q|id|id| | | |]; cbn; intros Hu;
          try (destruct (Hsel u Hu); split; [done |]; apply elem_of_app; by left).
        all: destruct id as [i|]; [| done]; cbn in Hu;
          destruct (PyStr.truthy i) eqn:Hi; [| done]; injection Hu as ->;
          apply truthy_spec in Hi; split; [done |]; apply elem_of_app; right;
          apply list_elem_of_singleton; done.
      * intros u. destruct ev as [q|id|id| | | |]; cbn; rewrite ?Hd; try done.
        -- intros [= Hu]. destruct (Hsel u Hu). right. apply elem_of_app. by left.
        -- intros [= <-]. by left.
Qed.

(** X9. The picker flow touches only the chosen repository and its
    display.  After it, the form is as before (cancelled or still open),
    or cleared, or holds a non-empty identifier that the option list
    reported during the flow, displayed under the name the cache gives
    it. *)
Theorem pick_repo_provenance (a : t) (evs : list RepoPickerScreen.event) :
  let a1 := pick_repo a evs in
  (script_dir a1 = script_dir a ∧ target_dir a1 = target_dir a
   ∧ github_repos a1 = github_repos a ∧ target_dir_display a1 = target_dir_display a
   ∧ status_bar a1 = status_bar a ∧ log a1 = log a)
  ∧ (a1 = a
     ∨ (selected_repo a1 = "" ∧ repo_display a1 = "(none)")
     ∨ (selected_repo a1 ≠ "" ∧ selected_repo a1 ∈ reported_ids evs
        ∧ repo_display a1 = name_of (github_repos a) (selected_repo a1))).
Proof.
  cbv zeta. unfold pick_repo.
  destruct (run_reports [] evs (RepoPickerScreen.init (github_repos a))) as [_ Hdis];
    [done | done |].
  destruct (RepoPickerScreen.dismissed _) as [[u|]|];
    [| split; [done | by left] | split; [done | by left]].
  unfold on_repo_picked. destruct (PyStr.truthy u) eqn:Hu.
  - split; [done |]. right. right. apply truthy_spec in Hu.
    destruct (Hdis u eq_refl) as [? | Hin]; [done |].
    cbn [selected_repo repo_display set_selected_repo]. done.
  - split; [done |]. right. left.
    assert (u = "") as -> by (destruct u; [done | discriminate Hu]). done.
Qed.

Lemma name_of_first (before after : list repo) (n u : string) :
  u ∉ before.*2 → name_of (before ++ (n, u) :: after) u = n.
Proof.
  induction before as [|[n' u'] before IH]; simpl; intros Hnotin.
  - by rewrite String.eqb_refl.
  - rewrite not_elem_of_cons in Hnotin. destruct Hnotin as [Hne Hnotin].
    destruct (String.eqb_spec u' u); [congruence | by apply IH].
Qed.

Lemma name_of_unknown (l : list repo) (u : string) : u ∉ l.*2 → name_of l u = u.
Proof.
  induction l as [|[n' u'] l IH]; simpl; intros Hnotin; [done |].
  rewrite not_elem_of_cons in Hnotin. destruct Hnotin as [Hne Hnotin].
  destruct (String.eqb_spec u' u); [congruence | by apply IH].
Qed.

(** X10. Choosing a highlighted repository stores its identifier and
    displays the name of the first candidate of the cache that has this
    identifier; an identifier that no candidate has is displayed as
    itself. *)
Theorem chosen_repo_display (a : t) (before after : list repo) (n u : string)
    (queries : list string) :
  github_repos a = before ++ (n, u) :: after →
  u ∉ before.*2 →
  u ≠ "" →
  let a1 := pick_repo a ([RepoPickerScreen.OptionHighlighted (Some u)]
                         ++ (RepoPickerScreen.SearchChanged <$> queries)
                         ++ [RepoPickerScreen.SelectPressed]) in
  selected_repo a1 = u ∧ repo_display a1 = n
  ∧ (∀ u', u' ≠ "" → u' ∉ (github_repos a).*2 →
       repo_display (on_repo_picked a (Some u')) = u').
Proof.
  intros Hcache Hfirst Hu. cbv zeta. unfold pick_repo.
  rewrite (highlight_then_select (github_repos a) u queries Hu).
  unfold on_repo_picked. rewrite (proj2 (truthy_spec u) Hu).
  cbn [selected_repo repo_display set_selected_repo]. split_and!; [done | |].
  - rewrite Hcache. by apply name_of_first.
  - intros u' Hu' Hnotin. rewrite (proj2 (truthy_spec u') Hu').
    cbn [repo_display set_selected_repo]. by apply name_of_unknown.
Qed.

(** With the example cache, the identifier shared by "x" and "y" is
    displayed as "x". *)
Lemma chosen_repo_display_witness :
  let a1 := pick_repo app_chosen [RepoPickerScreen.OptionHighlighted (Some "u1");
                                  RepoPickerScreen.SelectPressed] in
  selected_repo a1 = "u1" ∧ repo_display a1 = "x".
Proof.
  pose proof (chosen_repo_display app_chosen [] [("y", "u1"); ("z", "u2")] "x" "u1" []
                eq_refl ltac:(apply not_elem_of_nil) ltac:(done)) as (H1 & H2 & _).
  exact (conj H1 H2).
Defined.

End RepoChoice.

(** ** What the directory picker does and returns *)

Section DirectoryChoice.
Import DirectoryPickerScreen.















(** X13. Browse, type a name, Create Folder, Select: when the folder is
    created the target directory of the form becomes the new folder, which
    exists; when the name is blank or the creation fails, Select returns
    the start path and the target directory becomes the home directory.
    Select pressed right away does the same. *)
Theorem browse_create_then_select
    (a : SimpleDevEnvApp.t) (home : Path) (v : string) (fs : gmap Path Fs.node) :
  let name := PyStr.strip v in
  let new_path := PurePath.truediv home name in
  let r := SimpleDevEnvApp.browse a home [InputChanged v; CreateFolderPressed; SelectPressed] fs in
  (name ≠ "" → (Fs.mkdir fs new_path true true).2 = None →
     SimpleDevEnvApp.target_dir r.1 = new_path
     ∧ SimpleDevEnvApp.target_dir_display r.1 = PurePath.str new_path
     ∧ Fs.is_dir r.2 new_path = true)
  ∧ (name = "" ∨ (Fs.mkdir fs new_path true true).2 ≠ None →
     SimpleDevEnvApp.target_dir r.1 = home
     ∧ SimpleDevEnvApp.target_dir_display r.1 = PurePath.str home)
  ∧ SimpleDevEnvApp.browse a home [SelectPressed] fs
    = (SimpleDevEnvApp.on_directory_picked a (Some home), fs).
Proof.
  cbv zeta. unfold SimpleDevEnvApp.browse.
  cbn [run init dismissed handle input_changed from_option id].
  set (s1 := input_changed (init (Some home) home) v).
  destruct (PyStr.truthy (PyStr.strip v)) eqn:Hname.
  - destruct (Fs.mkdir fs (PurePath.truediv home (PyStr.strip v)) true true)
      as [fs1 [e|]] eqn:Hmk.
    + rewrite (on_create_folder_failed s1 fs fs1 e Hname Hmk).
      split_and!; [by intros _ ? | done | done].
    + rewrite (on_create_folder_created s1 fs fs1 Hname Hmk).
      cbn [dismissed on_select dismiss selected_path start_path from_option id fst snd
           SimpleDevEnvApp.on_directory_picked SimpleDevEnvApp.target_dir
           SimpleDevEnvApp.target_dir_display].
      split_and!; [| | done].
      * intros _ _. split_and!; try done. by apply mkdir_ok in Hmk as [_ ?].
      * apply truthy_spec in Hname. by intros [? | ?].
  - assert (Hblank : on_create_folder s1 fs = (s1, fs)).
    { unfold on_create_folder. subst s1. cbn [new_folder_input input_changed]. by rewrite Hname. }
    rewrite Hblank. split_and!; [| done | done].
    intros Hne. apply truthy_spec in Hne. congruence.
Qed.

End DirectoryChoice.
